(** * Geofence: a shallow embedding of [geofence_script.py]

    The script turns a path of waypoints into a corridor polygon: every
    consecutive pair of waypoints is buffered by a metric distance converted
    to degrees, the buffers are stitched with shapely's [linemerge] and
    [polygonize], the result is simplified and written to a Mission Planner
    [.poly] file.

    Numbers.  A waypoint is a pair of finite floats; every finite float is
    a rational, so a waypoint is a pair of [Q].  The unit conversion goes
    through [np.cos], so distances in degrees are real numbers [R], and the
    arithmetic of the conversion is exact.  The vertices of the rings that
    shapely returns, which the serializer prints and compares, are floats
    [pyfloat]: a rational, the negative zero, an infinity or NaN.

    Shapely.  The geometry operations of the library ([buffer], [linemerge],
    [polygonize], [simplify], the [Polygon] constructor) are not part of the
    script; they are the fields of the class [Shapely] and every statement
    holds for all of its instances. *)

From Stdlib Require Import ZArith QArith Qabs Qreals Qround Reals Lra Lia.
From Stdlib Require Import List Bool Ascii String DecimalString DecimalN.
From Stdlib Require Lqa.
Import ListNotations.

Close Scope R_scope.
Close Scope Q_scope.
Open Scope nat_scope.

(* ================================================================= *)
(** ** Exceptions and results *)

Inductive exn : Type :=
| IndexError
| AttributeError
| UnboundLocalError
| ValueError (msg : string).

Inductive result (A : Type) : Type :=
| Ok (a : A)
| Raise (e : exn).
Arguments Ok {A} a.
Arguments Raise {A} e.

Definition bind {A B : Type} (m : result A) (k : A -> result B) : result B :=
  match m with
  | Ok a => k a
  | Raise e => Raise e
  end.

Declare Scope py_scope.
Delimit Scope py_scope with py.
Notation "x <- m ;; k" := (bind m (fun x => k))
  (at level 61, m at next level, right associativity) : py_scope.

(** A [for] loop whose body may raise: the body threads the local variables
    [st] from one iteration to the next. *)
Fixpoint for_each {A St : Type} (body : St -> A -> result St)
         (items : list A) (st : St) : result St :=
  match items with
  | [] => Ok st
  | x :: rest => bind (body st x) (for_each body rest)
  end.

(** [xs[i]] for a non-negative index. *)
Definition getitem {A : Type} (xs : list A) (i : nat) : result A :=
  match nth_error xs i with
  | Some x => Ok x
  | None => Raise IndexError
  end.

(** [xs[-1]]. *)
Definition getlast {A : Type} (xs : list A) : result A :=
  match xs with
  | [] => Raise IndexError
  | _ => getitem xs (List.length xs - 1)
  end.

(* ================================================================= *)
(** ** Geometry values *)

(** A coordinate tuple in shapely's order, [(lon, lat)]. *)
Definition coord : Type := (Q * Q)%type.

(** A float as a ring holds it: a finite value, where [0.0] is [Num 0] and
    [-0.0] is [NegZero], an infinity or NaN. *)
Inductive pyfloat : Type :=
| Num (q : Q)
| NegZero
| PosInf
| NegInf
| NaN.

Coercion Num : Q >-> pyfloat.

(** A vertex of a ring, [(lon, lat)]. *)
Definition vertex : Type := (pyfloat * pyfloat)%type.

Definition finite (c : coord) : vertex := (Num (fst c), Num (snd c)).

(** The real number of a float; an infinity and NaN have none, and no
    result depends on the value given to them. *)
Definition float_R (x : pyfloat) : R :=
  match x with
  | Num q => Q2R q
  | _ => 0%R
  end.

(** The line of a segment, from one waypoint to the next. *)
Definition LineString : Type := list coord.

(** The vertices of a ring or of a merged line. *)
Definition LinearRing : Type := list vertex.

Record Polygon : Type := mkPolygon {
  exterior : LinearRing;
  interiors : list LinearRing
}.

Inductive Geometry : Type :=
| GPolygon (p : Polygon)
| GMultiPolygon (geoms : list Polygon)
| GLineString (l : LinearRing)
| GMultiLineString (lines : list LinearRing)
| GPoint (c : coord)
| GEmptyCollection.

(** [g.geom_type]. *)
Definition geom_type (g : Geometry) : string :=
  match g with
  | GPolygon _ => "Polygon"
  | GMultiPolygon _ => "MultiPolygon"
  | GLineString _ => "LineString"
  | GMultiLineString _ => "MultiLineString"
  | GPoint _ => "Point"
  | GEmptyCollection => "GeometryCollection"
  end.

(** [g.exterior]: only a polygon has the attribute. *)
Definition get_exterior (g : Geometry) : result LinearRing :=
  match g with
  | GPolygon p => Ok (exterior p)
  | _ => Raise AttributeError
  end.

(** The operations the script takes from shapely. *)
Class Shapely : Type := {
  (** [line.buffer(distance, resolution=n)] *)
  buffer : LineString -> R -> Z -> Polygon;
  (** [linemerge(rings)] *)
  linemerge : list LinearRing -> Geometry;
  (** [list(polygonize(lines))] *)
  polygonize : Geometry -> list Polygon;
  (** [g.simplify(tolerance, preserve_topology=b)] *)
  simplify : Geometry -> R -> bool -> Geometry;
  (** [Polygon(line)] *)
  Polygon_of_line : LinearRing -> result Polygon
}.

(* ================================================================= *)
(** ** Unit converter *)

Module Converter.
Local Open Scope R_scope.

Definition meters_per_degree_latitude : R := 111045.
Definition meters_per_degree_longitude : R := 8787018 / 100.

(** [np.radians] *)
Definition radians (deg : R) : R := deg * PI / 180.

Definition meters_to_degrees (meters latitude : R) : R * R :=
  let lat_radians := radians latitude in
  let degrees_latitude := meters / meters_per_degree_latitude in
  let degrees_longitude :=
    meters / (meters_per_degree_longitude * cos lat_radians) in
  (degrees_latitude, degrees_longitude).

(** Python's [max(a, b)]: the first argument unless the second is greater. *)
Definition py_max (a b : R) : R := if Rlt_dec a b then b else a.

(** [np.mean] of a list. *)
Definition mean (xs : list R) : R :=
  fold_right Rplus 0 xs / INR (List.length xs).

End Converter.

(* ================================================================= *)
(** ** Segment buffer, stitcher and simplifier *)

Section Pipeline.
Context {shapely : Shapely}.
Import Converter.
Local Open Scope py_scope.

(** Lines 43-46: one [LineString] per index of [range(len(waypoints) - 1)];
    the range is empty when there are no waypoints. *)
Definition line_segments (waypoints : list coord) : result (list LineString) :=
  for_each
    (fun segs i =>
       a <- getitem waypoints i ;;
       b <- getitem waypoints (i + 1) ;;
       Ok (segs ++ [[a; b]]))
    (seq 0 (List.length waypoints - 1)) [].

(** Lines 52-56: the angular radius of one segment. *)
Definition segment_radius (buffer_distance_meters : R) (segment : LineString)
  : result R :=
  c0 <- getitem segment 0 ;;
  c1 <- getitem segment 1 ;;
  let avg_lat := mean [Q2R (snd c0); Q2R (snd c1)] in
  let '(buffer_lat, buffer_lon) :=
    meters_to_degrees buffer_distance_meters avg_lat in
  Ok (py_max buffer_lat buffer_lon).

(** The locals of the loop of lines 50-58: the list built so far and
    [buffer_distance_degrees], unbound before the first iteration. *)
Definition buffer_locals : Type := (list Polygon * option R)%type.

Definition buffer_body (buffer_distance_meters : R)
           (st : buffer_locals) (segment : LineString) : result buffer_locals :=
  buffer_distance_degrees <- segment_radius buffer_distance_meters segment ;;
  Ok (fst st ++ [buffer segment buffer_distance_degrees 4],
      Some buffer_distance_degrees).

Definition buffer_segments (buffer_distance_meters : R)
           (segments : list LineString) : result buffer_locals :=
  for_each (buffer_body buffer_distance_meters) segments ([], None).

(** Lines 61-65. *)
Definition stitch (buffered_segments : list Polygon) : result Geometry :=
  let merged := linemerge (map exterior buffered_segments) in
  let polygons := polygonize merged in
  if (1 <? List.length polygons)%nat
  then Ok (GMultiPolygon polygons)
  else p <- getitem polygons 0 ;; Ok (GPolygon p).

(** Reading the local [buffer_distance_degrees] on line 68. *)
Definition read_local (v : option R) : result R :=
  match v with
  | Some r => Ok r
  | None => Raise UnboundLocalError
  end.

Definition create_geofence (waypoints : list coord)
           (buffer_distance_meters : R) : result Geometry :=
  segments <- line_segments waypoints ;;
  st <- buffer_segments buffer_distance_meters segments ;;
  geofence <- stitch (fst st) ;;
  buffer_distance_degrees <- read_local (snd st) ;;
  Ok (simplify geofence (buffer_distance_degrees / 2)%R true).

(** Lines 72-101. *)
Definition default_simplification_tolerance : R := (1 / 10000)%R.

Definition simplify_body (buffer_distance_meters simplification_tolerance : R)
           (simplified_segments : list Geometry) (segment : Geometry)
  : result (list Geometry) :=
  ring <- get_exterior segment ;;
  let avg_lat := mean (map (fun p : vertex => float_R (snd p)) ring) in
  let '(buffer_lat, buffer_lon) :=
    meters_to_degrees buffer_distance_meters avg_lat in
  let buffer_distance_degrees := py_max buffer_lat buffer_lon in
  let simplified := simplify segment simplification_tolerance true in
  Ok (simplified_segments ++ [simplified]).

Definition simplify_geofence (geofence : Geometry)
           (buffer_distance_meters simplification_tolerance : R)
  : result Geometry :=
  let segments :=
    match geofence with
    | GMultiPolygon geoms => map GPolygon geoms
    | _ => [geofence]
    end in
  simplified_segments <-
    for_each (simplify_body buffer_distance_meters simplification_tolerance)
             segments [] ;;
  rings <-
    for_each (fun acc seg => r <- get_exterior seg ;; Ok (acc ++ [r]))
             simplified_segments [] ;;
  let merged_lines := linemerge rings in
  final_geofence <-
    (* the branches on [merged_lines.geom_type] *)
    match merged_lines with
    | GLineString l => p <- Polygon_of_line l ;; Ok (GPolygon p)
    | GMultiLineString lines =>
        polygons <-
          for_each (fun acc line => p <- Polygon_of_line line ;; Ok (acc ++ [p]))
                   lines [] ;;
        Ok (GMultiPolygon polygons)
    | _ => Raise (ValueError "Unexpected geometry type after merging")
    end ;;
  Ok (simplify final_geofence simplification_tolerance true).

End Pipeline.

(* ================================================================= *)
(** ** Serializer *)

Module Serializer.
Local Open Scope string_scope.

(** *** [format(x, ".Nf")] *)

Definition digit_char (d : Z) : ascii := ascii_of_nat (48 + Z.to_nat d).

(** The [width] low decimal digits of [n], most significant first. *)
Fixpoint fixed_digits (width : nat) (n : Z) : string :=
  match width with
  | O => ""
  | S w => String (digit_char ((n / 10 ^ Z.of_nat w) mod 10)) (fixed_digits w n)
  end.

(** The decimal numeral of a natural number, without leading zeros. *)
Definition decimal (n : Z) : string :=
  NilZero.string_of_uint (N.to_uint (Z.to_N n)).

(** Rounding to the nearest integer, ties to even, as the float formatter
    rounds the exact value of its argument. *)
Definition round_half_even (q : Q) : Z :=
  let fl := Qfloor q in
  match Qcompare (q - inject_Z fl) (1 # 2) with
  | Lt => fl
  | Gt => (fl + 1)%Z
  | Eq => if Z.even fl then fl else (fl + 1)%Z
  end.

(** The numeral of a finite value, from its sign and its magnitude. *)
Definition format_finite (precision : nat) (negative : bool) (magnitude : Q)
  : string :=
  let scale := (10 ^ Z.of_nat precision)%Z in
  let scaled := round_half_even (magnitude * inject_Z scale) in
  (if negative then "-" else "")
    ++ decimal (scaled / scale)
    ++ match precision with
       | O => ""
       | _ => "." ++ fixed_digits precision scaled
       end.

(** [format(x, ".Nf")]: a negative value and the negative zero carry the
    sign, an infinity and NaN are written by name. *)
Definition format_f (precision : nat) (x : pyfloat) : string :=
  match x with
  | Num q => format_finite precision (negb (Qle_bool 0 q)) (Qabs q)
  | NegZero => format_finite precision true 0
  | PosInf => "inf"
  | NegInf => "-inf"
  | NaN => "nan"
  end.
Arguments format_f precision%_nat x%_Q.

Definition newline : string := String (ascii_of_nat 10) "".

(** The f-string of lines 119 and 123. *)
Definition vertex_line (lat lon : pyfloat) : string :=
  format_f 10 lat ++ " " ++ format_f 10 lon ++ newline.

(** [x == y] on floats: the two zeros are equal, NaN equals nothing. *)
Definition float_eq (x y : pyfloat) : bool :=
  match x, y with
  | Num p, Num q => Qeq_bool p q
  | Num p, NegZero => Qeq_bool p 0
  | NegZero, Num q => Qeq_bool q 0
  | NegZero, NegZero => true
  | PosInf, PosInf => true
  | NegInf, NegInf => true
  | _, _ => false
  end.

(** [a != b] on two tuples of floats that are different objects. *)
Definition coord_neq (a b : vertex) : bool :=
  negb (float_eq (fst a) (fst b) && float_eq (snd a) (snd b)).

(** [coords[0] != coords[-1]]: in a list of one tuple both are the same
    object, which is equal to itself whatever it holds. *)
Definition tuple_ne (same_object : bool) (a b : vertex) : bool :=
  negb same_object && coord_neq a b.

(** *** The open file *)

(** The strings written to the file so far, in order; the text of the file is
    their concatenation. *)
Definition File : Type := list string.

Definition IO (A : Type) : Type := File -> File * result A.

Definition ret {A : Type} (a : A) : IO A := fun f => (f, Ok a).
Definition raise {A : Type} (e : exn) : IO A := fun f => (f, Raise e).
Definition lift {A : Type} (r : result A) : IO A := fun f => (f, r).
Definition write (s : string) : IO unit := fun f => ((f ++ [s])%list, Ok tt).

Definition io_bind {A B : Type} (m : IO A) (k : A -> IO B) : IO B :=
  fun f =>
    match m f with
    | (f', Ok a) => k a f'
    | (f', Raise e) => (f', Raise e)
    end.

Declare Scope io_scope.
Delimit Scope io_scope with io.
Notation "x <- m ;; k" := (io_bind m (fun x => k))
  (at level 61, m at next level, right associativity) : io_scope.
Notation "m ;; k" := (io_bind m (fun _ => k))
  (at level 61, right associativity) : io_scope.

Fixpoint io_for {A : Type} (items : list A) (body : A -> IO unit) : IO unit :=
  match items with
  | [] => ret tt
  | x :: rest => io_bind (body x) (fun _ => io_for rest body)
  end.

Definition header : string := "#saved by Python Script" ++ newline.
Definition END : string := "END" ++ newline.

(** The body of the loop of lines 116-127. *)
Definition write_polygon (polygons : list Polygon) (polygon : Polygon)
  : IO unit :=
  (let coords := exterior polygon in
   io_for coords (fun '(lon, lat) => write (vertex_line lat lon)) ;;
   first <- lift (getitem coords 0) ;;
   last <- lift (getlast coords) ;;
   (if tuple_ne (List.length coords =? 1)%nat first last
    then write (vertex_line (snd first) (fst first))
    else ret tt) ;;
   if (1 <? List.length polygons)%nat then write END else ret tt)%io.

(** Lines 107-130, inside the [with] block. *)
Definition write_geofence (geofence : Geometry) : IO unit :=
  (write header ;;
   polygons <-
     match geofence with
     | GMultiPolygon geoms => ret geoms
     | GPolygon p => ret [p]
     | _ => raise (ValueError "Geofence must be a Polygon or MultiPolygon")
     end ;;
   io_for polygons (write_polygon polygons) ;;
   write END)%io.

(** *** The file system *)

Definition FileSystem : Type := string -> option string.

Definition store (fs : FileSystem) (name text : string) : FileSystem :=
  fun n => if String.eqb n name then Some text else fs n.

(** [open(filename, 'w')] creates or truncates the file; leaving the [with]
    block closes it, also when the block raises. *)
Definition save_geofence_to_poly (geofence : Geometry) (filename : string)
           (fs : FileSystem) : FileSystem * result unit :=
  let '(written, r) := write_geofence geofence [] in
  (store fs filename (String.concat "" written), r).

End Serializer.

(* ================================================================= *)
(** ** The segment-buffering stage, as the design describes it *)

Section SegmentBufferSpec.
Context {shapely : Shapely}.
Import Converter.

(** The mean latitude of the segment from [a] to [b] and the radius the
    conversion gives there. *)
Definition mean_latitude (a b : coord) : R :=
  ((Q2R (snd a) + Q2R (snd b)) / 2)%R.

Definition radius (meters : R) (a b : coord) : R :=
  Rmax (fst (meters_to_degrees meters (mean_latitude a b)))
       (snd (meters_to_degrees meters (mean_latitude a b))).

Definition origin : coord := (0, 0)%Q.

(** The segment that starts at waypoint [i]. *)
Definition segment_at (waypoints : list coord) (i : nat) : LineString :=
  [nth i waypoints origin; nth (i + 1) waypoints origin].

Definition buffered_at (meters : R) (segment : LineString) : Polygon :=
  buffer segment
         (radius meters (nth 0 segment origin) (nth 1 segment origin)) 4.

(** The value of [buffer_distance_degrees] after the loop over [segments],
    when it held [before] on entry. *)
Definition last_radius (meters : R) (segments : list LineString)
           (before : option R) : option R :=
  fold_left
    (fun _ seg => Some (radius meters (nth 0 seg origin) (nth 1 seg origin)))
    segments before.

(** The two lists the stage builds, as functions of the waypoints. *)
Definition segments_of (waypoints : list coord) : list LineString :=
  map (segment_at waypoints) (seq 0 (List.length waypoints - 1)).

Definition buffers_of (meters : R) (waypoints : list coord) : list Polygon :=
  map (buffered_at meters) (segments_of waypoints).

End SegmentBufferSpec.

(* ================================================================= *)
(** ** The [.poly] text, as the format describes it *)

Module PolyFormat.
Import Serializer.
Local Open Scope string_scope.

(** The vertex line of a coordinate tuple: latitude first. *)
Definition line_of (c : vertex) : string := vertex_line (snd c) (fst c).

(** The vertex lines of a ring: one per vertex, and the first vertex once
    more when the ring is not closed. *)
Definition ring_lines (ring : LinearRing) : list string :=
  match ring with
  | [] => []
  | first :: _ =>
      (map line_of ring
         ++ (if tuple_ne (List.length ring =? 1)%nat first
                         (List.last ring first)
             then [line_of first] else []))%list
  end.

Definition nonempty_ring (p : Polygon) : bool :=
  match exterior p with
  | [] => false
  | _ => true
  end.

(** The polygons in front of the first one whose ring has no vertex. *)
Fixpoint rings_before_empty (polygons : list Polygon) : list Polygon :=
  match polygons with
  | [] => []
  | p :: rest =>
      if nonempty_ring p then p :: rings_before_empty rest else []
  end.

(** The polygons [save_geofence_to_poly] accepts. *)
Definition polygons_of (g : Geometry) : option (list Polygon) :=
  match g with
  | GMultiPolygon geoms => Some geoms
  | GPolygon p => Some [p]
  | _ => None
  end.

(** A float with a finite value. *)
Definition is_finite (x : pyfloat) : bool :=
  match x with
  | Num _ | NegZero => true
  | _ => false
  end.

(** The value of a finite float. *)
Definition finite_value (x : pyfloat) : Q :=
  match x with
  | Num q => q
  | _ => 0%Q
  end.

(** No zero of one float faces the zero of the other sign in the other
    float: equal floats that agree in this are the same float. *)
Definition zero_signs_agree (x y : pyfloat) : bool :=
  match x, y with
  | Num p, NegZero => negb (Qeq_bool p 0)
  | NegZero, Num q => negb (Qeq_bool q 0)
  | _, _ => true
  end.

Definition vertex_signs_agree (a b : vertex) : bool :=
  zero_signs_agree (fst a) (fst b) && zero_signs_agree (snd a) (snd b).

Definition is_digit (c : ascii) : bool :=
  ((48 <=? nat_of_ascii c)%nat && (nat_of_ascii c <=? 57)%nat)%bool.

Fixpoint all_digits (s : string) : bool :=
  match s with
  | EmptyString => true
  | String c rest => is_digit c && all_digits rest
  end.

(** A fixed-point numeral with exactly [n] digits after the point. *)
Definition fixed_point (n : nat) (s : string) : Prop :=
  exists sign whole frac,
    s = sign ++ whole ++ "." ++ frac
    /\ (sign = "" \/ sign = "-")
    /\ whole <> ""
    /\ all_digits whole = true
    /\ all_digits frac = true
    /\ String.length frac = n.

(** The lines that follow the vertices of each polygon. *)
Definition separator (polygons : list Polygon) : list string :=
  if (1 <? List.length polygons)%nat then [END] else [].

(** The layout with a marker line only between consecutive vertex blocks
    and a single marker line after the last block. *)
Fixpoint blocks_with_markers_between (polygons : list Polygon) : list string :=
  match polygons with
  | [] => []
  | [p] => ring_lines (exterior p)
  | p :: rest =>
      (ring_lines (exterior p) ++ [END] ++ blocks_with_markers_between rest)%list
  end.

Definition markers_between (polygons : list Polygon) : list string :=
  (header :: blocks_with_markers_between polygons ++ [END])%list.

End PolyFormat.

(* ================================================================= *)
(** ** A small instance of the shapely interface

    Rings are kept as they are: the buffer of a line is the line closed into
    a ring, merging keeps every ring, every ring becomes a polygon and
    simplification changes nothing.  The statements below hold for every
    instance; this one serves to run them on concrete paths. *)

Definition ring_shapely : Shapely := {|
  buffer := fun line _ _ => mkPolygon (map finite (line ++ firstn 1 line)) [];
  linemerge := fun rings => GMultiLineString rings;
  polygonize := fun g =>
    match g with
    | GMultiLineString lines => map (fun l => mkPolygon l []) lines
    | GLineString l => [mkPolygon l []]
    | _ => []
    end;
  simplify := fun g _ _ => g;
  Polygon_of_line := fun l => Ok (mkPolygon l [])
|}.

(** A path of three waypoints and a square, in [(lon, lat)] order. *)
Definition path3 : list coord := [(0, 0); (0, 1 # 1000); (0, 2 # 1000)]%Q.
Definition square : Polygon :=
  mkPolygon (map finite [(0, 0); (1, 0); (1, 1); (0, 1); (0, 0)]%Q) [].
Definition open_square : Polygon :=
  mkPolygon (map finite [(0, 0); (1, 0); (1, 1); (0, 1)]%Q) [].

(** A ring that ends at its first vertex with a zero of the other sign, and
    a ring that starts at a vertex with NaN. *)
Definition signed_zero_ring : Polygon :=
  mkPolygon [(Num 0, Num 0); (Num 1, Num 0); (Num 1, Num 1); (NegZero, Num 0)]
            [].
Definition nan_ring : Polygon :=
  mkPolygon [(NaN, Num 0); (Num 1, Num 0); (Num 1, Num 1)] [].

(** A file system without files. *)
Definition no_files : Serializer.FileSystem := fun _ => None.

(* ================================================================= *)
(** ** Waypoint reader *)

Module Reader.
Local Open Scope string_scope.

(** [float(s)] is Python's; the reader is stated for every such function
    with finite values. *)
Class PyFloat : Type := {
  py_float : string -> result Q
}.

(** [c.isspace()], for a character below 256. *)
Definition is_space (c : ascii) : bool :=
  let n := nat_of_ascii c in
  (((9 <=? n)%nat && (n <=? 13)%nat)
   || ((28 <=? n)%nat && (n <=? 32)%nat)
   || (n =? 133)%nat || (n =? 160)%nat)%bool.

(** [s.lstrip()] *)
Fixpoint lstrip (s : string) : string :=
  match s with
  | EmptyString => EmptyString
  | String c rest => if is_space c then lstrip rest else s
  end.

(** [s.rstrip()] *)
Fixpoint rstrip (s : string) : string :=
  match s with
  | EmptyString => EmptyString
  | String c rest =>
      match rstrip rest with
      | EmptyString => if is_space c then EmptyString else String c EmptyString
      | kept => String c kept
      end
  end.

(** [s.strip()] *)
Definition strip (s : string) : string := rstrip (lstrip s).

(** [s.split(sep)] for a separator of one character. *)
Fixpoint split (sep : ascii) (s : string) : list string :=
  match s with
  | EmptyString => [EmptyString]
  | String c rest =>
      if Ascii.eqb c sep then EmptyString :: split sep rest
      else match split sep rest with
           | field :: fields => String c field :: fields
           | [] => [String c EmptyString]
           end
  end.

Definition tab : ascii := ascii_of_nat 9.

Section Read.
Context {builtins : PyFloat}.
Local Open Scope py_scope.

(** Lines 17-20: the waypoint of one data line. *)
Definition read_line (line : string) : result coord :=
  let parts := split tab (strip line) in
  p8 <- getitem parts 8 ;;
  lat <- py_float p8 ;;
  p9 <- getitem parts 9 ;;
  lon <- py_float p9 ;;
  Ok (lon, lat).

(** The body of the loop of lines 14-20. *)
Definition read_body (waypoints : list coord) (line : string)
  : result (list coord) :=
  if String.prefix "QGC" line
  then Ok waypoints
  else wp <- read_line line ;; Ok (waypoints ++ [wp])%list.

(** Lines 12-21, on the lines that iterating over the open file gives. *)
Definition read_waypoints (file : list string) : result (list coord) :=
  for_each read_body file [].

End Read.

(** *** Words for the statements about the reader *)

Definition is_header (line : string) : bool := String.prefix "QGC" line.

Definition data_lines (file : list string) : list string :=
  filter (fun line => negb (is_header line)) file.

(** The tab-separated fields of a stripped line. *)
Definition fields_of (line : string) : list string := split tab (strip line).

Fixpoint no_char (c : ascii) (s : string) : bool :=
  match s with
  | EmptyString => true
  | String d rest => negb (Ascii.eqb d c) && no_char c rest
  end.

Fixpoint all_space (s : string) : bool :=
  match s with
  | EmptyString => true
  | String c rest => is_space c && all_space rest
  end.

Definition starts_with_text (s : string) : bool :=
  match s with
  | EmptyString => false
  | String c _ => negb (is_space c)
  end.

Fixpoint ends_with_text (s : string) : bool :=
  match s with
  | EmptyString => false
  | String c EmptyString => negb (is_space c)
  | String _ rest => ends_with_text rest
  end.

(** *** A reader of plain decimal numerals

    It accepts an optional sign, digits and an optional fraction: the
    numerals of a mission file.  It serves to run the reader. *)

Fixpoint digits_value (s : string) (acc : Z) : option Z :=
  match s with
  | EmptyString => Some acc
  | String c rest =>
      if PolyFormat.is_digit c
      then digits_value rest (10 * acc + Z.of_nat (nat_of_ascii c - 48))%Z
      else None
  end.

Definition unsigned_decimal (s : string) : option Q :=
  match split "."%char s with
  | [whole] =>
      match whole, digits_value whole 0 with
      | String _ _, Some w => Some (inject_Z w)
      | _, _ => None
      end
  | [whole; frac] =>
      match String.append whole frac,
            digits_value whole 0, digits_value frac 0 with
      | String _ _, Some w, Some f =>
          let scale := (10 ^ Z.of_nat (String.length frac))%Z in
          Some (Qmake (w * scale + f) (Z.to_pos scale))
      | _, _, _ => None
      end
  | _ => None
  end.

Definition plain_decimal_float (s : string) : result Q :=
  let number :=
    match strip s with
    | EmptyString => None
    | String c rest =>
        if Ascii.eqb c "-" then option_map Qopp (unsigned_decimal rest)
        else if Ascii.eqb c "+" then unsigned_decimal rest
        else unsigned_decimal (String c rest)
    end in
  match number with
  | Some q => Ok q
  | None => Raise (ValueError "could not convert string to float")
  end.

Definition plain_decimal : PyFloat := {| py_float := plain_decimal_float |}.

(** A mission file: the header and two waypoints. *)
Definition newline : string := String (ascii_of_nat 10) "".

Definition mission_line (lat lon : string) : string :=
  String.concat (String tab "")
                ["0"; "1"; "0"; "16"; "0"; "0"; "0"; "0"; lat; lon; "488"; "1"]
  ++ newline.

Definition mission : list string :=
  [ "QGC WPL 110" ++ newline;
    mission_line "47.3977" "8.5456";
    mission_line "47.3980" "8.5460" ].

End Reader.

(* ================================================================= *)
(** ** Closed rings *)

Module Closing.

(** The ring with its first vertex repeated at the end, unless it ends
    there already. *)
Definition close_ring (ring : LinearRing) : LinearRing :=
  match ring with
  | [] => []
  | first :: _ =>
      if Serializer.tuple_ne (List.length ring =? 1) first (last ring first)
      then ring ++ [first]
      else ring
  end.

Definition close_polygon (p : Polygon) : Polygon :=
  mkPolygon (close_ring (exterior p)) (interiors p).

(** The first vertex of the ring, if there is one, is equal to itself: it
    holds no NaN. *)
Definition starts_without_nan (p : Polygon) : bool :=
  match exterior p with
  | [] => true
  | first :: _ => negb (Serializer.coord_neq first first)
  end.

End Closing.

(* ================================================================= *)
(** ** Loops *)

Section Loops.
Context {A B St : Type}.

(** A loop whose body appends one computed element per item. *)
Lemma for_each_collect (body : list B -> A -> result (list B)) (g : A -> B) :
  forall items acc,
    (forall acc' x, In x items -> body acc' x = Ok (acc' ++ [g x])) ->
    for_each body items acc = Ok (acc ++ map g items).
Proof.
  induction items as [|x rest IH]; intros acc Hbody; simpl.
  - now rewrite app_nil_r.
  - rewrite Hbody by now left. simpl.
    rewrite IH by (intros; apply Hbody; now right).
    now rewrite <- app_assoc.
Qed.

Lemma for_each_ext (body body' : St -> A -> result St) :
  (forall st x, body st x = body' st x) ->
  forall items st, for_each body items st = for_each body' items st.
Proof.
  intros Hext; induction items as [|x rest IH]; intros st; simpl; [easy|].
  rewrite Hext. destruct (body' st x); simpl; auto.
Qed.

End Loops.

Lemma getitem_Some {A : Type} (xs : list A) (i : nat) (x : A) :
  nth_error xs i = Some x -> getitem xs i = Ok x.
Proof. unfold getitem; now intros ->. Qed.

(* ================================================================= *)
(** ** The segment-buffering stage *)

Section SegmentBuffer.
Context {shapely : Shapely}.
Import Converter.

Lemma py_max_Rmax (a b : R) : py_max a b = Rmax a b.
Proof.
  unfold py_max, Rmax.
  destruct (Rlt_dec a b), (Rle_dec a b); lra.
Qed.

Lemma mean_pair (x y : R) : mean [x; y] = ((x + y) / 2)%R.
Proof. unfold mean; simpl. lra. Qed.

Lemma segment_radius_pair (meters : R) (a b : coord) :
  segment_radius meters [a; b] = Ok (radius meters a b).
Proof.
  unfold segment_radius, radius, mean_latitude; simpl.
  now rewrite py_max_Rmax, mean_pair.
Qed.

Lemma line_segments_spec (waypoints : list coord) :
  line_segments waypoints
  = Ok (map (segment_at waypoints) (seq 0 (List.length waypoints - 1))).
Proof.
  unfold line_segments.
  rewrite (for_each_collect _ (segment_at waypoints)); [reflexivity|].
  intros acc i Hi. apply in_seq in Hi.
  rewrite (getitem_Some waypoints i (nth i waypoints origin))
    by (apply nth_error_nth'; lia).
  rewrite (getitem_Some waypoints (i + 1) (nth (i + 1) waypoints origin))
    by (apply nth_error_nth'; lia).
  reflexivity.
Qed.

Lemma buffer_loop_spec (meters : R) :
  forall segments acc before,
    Forall (fun seg => exists a b, seg = [a; b]) segments ->
    for_each (buffer_body meters) segments (acc, before)
    = Ok (acc ++ map (buffered_at meters) segments,
          last_radius meters segments before).
Proof.
  induction segments as [|seg rest IH]; intros acc before Hsegs; simpl.
  - now rewrite app_nil_r.
  - inversion Hsegs as [|? ? (a & b & ->) Hrest]; subst.
    unfold buffer_body at 1. rewrite segment_radius_pair. simpl.
    rewrite IH by assumption.
    unfold last_radius; simpl. now rewrite <- app_assoc.
Qed.

Lemma segments_are_pairs (waypoints : list coord) (n : nat) :
  Forall (fun seg => exists a b, seg = [a; b])
         (map (segment_at waypoints) (seq 0 n)).
Proof.
  apply Forall_forall. intros seg Hin. apply in_map_iff in Hin.
  destruct Hin as (i & <- & _). unfold segment_at; eauto.
Qed.

Lemma buffer_segments_spec (meters : R) (waypoints : list coord) :
  buffer_segments meters (segments_of waypoints)
  = Ok (buffers_of meters waypoints,
        last_radius meters (segments_of waypoints) None).
Proof.
  unfold buffer_segments, buffers_of.
  rewrite buffer_loop_spec by apply segments_are_pairs.
  reflexivity.
Qed.

Lemma segments_of_length (waypoints : list coord) :
  List.length (segments_of waypoints) = List.length waypoints - 1.
Proof. unfold segments_of. now rewrite length_map, length_seq. Qed.

Lemma buffers_of_length (meters : R) (waypoints : list coord) :
  List.length (buffers_of meters waypoints) = List.length waypoints - 1.
Proof. unfold buffers_of. now rewrite length_map, segments_of_length. Qed.

Lemma segments_of_nth (waypoints : list coord) (i : nat) (a b : coord) :
  nth_error waypoints i = Some a ->
  nth_error waypoints (S i) = Some b ->
  nth_error (segments_of waypoints) i = Some [a; b].
Proof.
  intros Ha Hb.
  assert (Hlt : S i < List.length waypoints)
    by (apply nth_error_Some; congruence).
  unfold segments_of.
  rewrite nth_error_map, nth_error_seq.
  destruct (Nat.ltb_spec i (List.length waypoints - 1)); [|lia].
  simpl. unfold segment_at.
  rewrite Nat.add_1_r.
  now rewrite (nth_error_nth _ _ origin Ha), (nth_error_nth _ _ origin Hb).
Qed.

Lemma buffers_of_nth (meters : R) (waypoints : list coord) (i : nat)
      (a b : coord) :
  nth_error waypoints i = Some a ->
  nth_error waypoints (S i) = Some b ->
  nth_error (buffers_of meters waypoints) i
  = Some (buffer [a; b] (radius meters a b) 4).
Proof.
  intros Ha Hb. unfold buffers_of.
  rewrite nth_error_map, (segments_of_nth _ _ _ _ Ha Hb).
  reflexivity.
Qed.

End SegmentBuffer.

(* ================================================================= *)
(** ** Properties of [create_geofence] and [simplify_geofence] *)

Section PipelineProperties.
Context {shapely : Shapely}.
Import Converter.

Lemma create_geofence_unfold (waypoints : list coord) (meters : R) :
  create_geofence waypoints meters
  = bind (stitch (buffers_of meters waypoints))
         (fun geofence =>
            bind (read_local (last_radius meters (segments_of waypoints) None))
                 (fun r => Ok (simplify geofence (r / 2)%R true))).
Proof.
  unfold create_geofence.
  rewrite line_segments_spec. simpl.
  fold (segments_of waypoints).
  rewrite buffer_segments_spec. reflexivity.
Qed.

Lemma last_radius_last (meters : R) (waypoints : list coord) :
  2 <= List.length waypoints ->
  last_radius meters (segments_of waypoints) None
  = Some (radius meters
                 (nth (List.length waypoints - 2) waypoints origin)
                 (nth (List.length waypoints - 1) waypoints origin)).
Proof.
  intros Hlen. unfold last_radius, segments_of.
  replace (List.length waypoints - 1) with (S (List.length waypoints - 2))
    by lia.
  rewrite seq_S, map_app, fold_left_app. simpl.
  replace (List.length waypoints - 2 + 1)
    with (S (List.length waypoints - 2)) by lia.
  reflexivity.
Qed.

(** C1.  Every segment the loop of [create_geofence] buffers, the one from
    waypoint [i] to waypoint [i + 1], is buffered with the radius
    [max(degrees_latitude, degrees_longitude)] that [meters_to_degrees] gives
    at the mean latitude of its two end points; that radius is at least the
    latitude conversion and at least the longitude conversion of the
    distance. *)
Theorem buffer_radius_is_conservative_max
        (waypoints : list coord) (meters : R) (i : nat) (a b : coord) :
  nth_error waypoints i = Some a ->
  nth_error waypoints (S i) = Some b ->
  exists segments buffered last r,
    line_segments waypoints = Ok segments
    /\ buffer_segments meters segments = Ok (buffered, last)
    /\ List.length buffered = List.length segments
    /\ nth_error segments i = Some [a; b]
    /\ segment_radius meters [a; b] = Ok r
    /\ nth_error buffered i = Some (buffer [a; b] r 4)
    /\ r = Rmax (fst (meters_to_degrees meters (mean_latitude a b)))
                (snd (meters_to_degrees meters (mean_latitude a b)))
    /\ (fst (meters_to_degrees meters (mean_latitude a b)) <= r)%R
    /\ (snd (meters_to_degrees meters (mean_latitude a b)) <= r)%R.
Proof.
  intros Ha Hb.
  exists (segments_of waypoints), (buffers_of meters waypoints),
    (last_radius meters (segments_of waypoints) None), (radius meters a b).
  repeat split.
  - apply line_segments_spec.
  - apply buffer_segments_spec.
  - now rewrite buffers_of_length, segments_of_length.
  - now apply segments_of_nth.
  - apply segment_radius_pair.
  - now apply buffers_of_nth.
  - apply Rmax_l.
  - apply Rmax_r.
Qed.

(** C2.  For a path of [n >= 2] waypoints and a positive distance, the
    segment-buffering stage builds [n - 1] line segments, segment [i] joining
    waypoints [i] and [i + 1], and [n - 1] buffered polygons, polygon [i]
    being the buffer of segment [i] at resolution 4. *)
Theorem segment_count
        (waypoints : list coord) (meters : R) :
  2 <= List.length waypoints ->
  (0 < meters)%R ->
  exists segments buffered last,
    line_segments waypoints = Ok segments
    /\ buffer_segments meters segments = Ok (buffered, last)
    /\ List.length segments = List.length waypoints - 1
    /\ List.length buffered = List.length waypoints - 1
    /\ segments
       = map (fun i => [nth i waypoints origin; nth (i + 1) waypoints origin])
             (seq 0 (List.length waypoints - 1))
    /\ Forall2 (fun seg poly => exists r, poly = buffer seg r 4)
               segments buffered.
Proof.
  intros _ _.
  exists (segments_of waypoints), (buffers_of meters waypoints),
    (last_radius meters (segments_of waypoints) None).
  repeat split.
  - apply line_segments_spec.
  - apply buffer_segments_spec.
  - apply segments_of_length.
  - apply buffers_of_length.
  - unfold buffers_of.
    induction (segments_of waypoints) as [|seg rest IH]; simpl;
      constructor; [unfold buffered_at; eauto | exact IH].
Qed.

(** C5.  With [polygons] the list polygonization returns for the merged
    boundaries of the buffered segments: one polygon is stitched to that
    [Polygon], several to the [MultiPolygon] of all of them, and with none
    [create_geofence] raises [IndexError] and returns nothing. *)
Theorem stitch_by_polygon_count
        (waypoints : list coord) (meters : R) :
  exists segments buffered last,
    line_segments waypoints = Ok segments
    /\ buffer_segments meters segments = Ok (buffered, last)
    /\ match polygonize (linemerge (map exterior buffered)) with
       | [] =>
           stitch buffered = Raise IndexError
           /\ create_geofence waypoints meters = Raise IndexError
       | [p] =>
           stitch buffered = Ok (GPolygon p)
           /\ create_geofence waypoints meters
              = bind (read_local last)
                     (fun r => Ok (simplify (GPolygon p) (r / 2)%R true))
       | p :: q :: more =>
           stitch buffered = Ok (GMultiPolygon (p :: q :: more))
           /\ create_geofence waypoints meters
              = bind (read_local last)
                     (fun r =>
                        Ok (simplify (GMultiPolygon (p :: q :: more))
                                     (r / 2)%R true))
       end.
Proof.
  exists (segments_of waypoints), (buffers_of meters waypoints),
    (last_radius meters (segments_of waypoints) None).
  split; [apply line_segments_spec|].
  split; [apply buffer_segments_spec|].
  rewrite create_geofence_unfold. unfold stitch.
  destruct (polygonize (linemerge (map exterior (buffers_of meters waypoints))))
    as [|p [|q more]]; simpl; auto.
Qed.

(** C6.  With fewer than two waypoints [create_geofence] raises: there is no
    segment, so either no polygon comes back to index on line 65 or the
    tolerance of line 68 reads a local that was never bound. *)
Theorem too_few_waypoints_fails
        (waypoints : list coord) (meters : R) :
  List.length waypoints < 2 ->
  exists e, create_geofence waypoints meters = Raise e
            /\ (e = IndexError \/ e = UnboundLocalError).
Proof.
  intros Hlen. rewrite create_geofence_unfold.
  assert (Hsegs : segments_of waypoints = []).
  { unfold segments_of.
    replace (List.length waypoints - 1) with 0 by lia. reflexivity. }
  unfold buffers_of, stitch. rewrite Hsegs. simpl.
  destruct (polygonize (linemerge [])) as [|p [|q more]]; simpl.
  - exists IndexError. auto.
  - exists UnboundLocalError. auto.
  - exists UnboundLocalError. auto.
Qed.

(** C7.  With at least two waypoints, the one simplification
    [create_geofence] performs after stitching runs at the tolerance
    [buffer_distance_degrees / 2], the radius being the one computed for the
    last segment of the path, from the last but one waypoint to the last. *)
Theorem simplify_tolerance_is_half_last_radius
        (waypoints : list coord) (meters : R) :
  2 <= List.length waypoints ->
  exists a b segments buffered r,
    nth_error waypoints (List.length waypoints - 2) = Some a
    /\ nth_error waypoints (List.length waypoints - 1) = Some b
    /\ line_segments waypoints = Ok segments
    /\ buffer_segments meters segments = Ok (buffered, Some r)
    /\ last segments [] = [a; b]
    /\ segment_radius meters [a; b] = Ok r
    /\ create_geofence waypoints meters
       = bind (stitch buffered)
              (fun geofence => Ok (simplify geofence (r / 2)%R true)).
Proof.
  intros Hlen.
  set (n := List.length waypoints) in *.
  exists (nth (n - 2) waypoints origin), (nth (n - 1) waypoints origin),
    (segments_of waypoints), (buffers_of meters waypoints),
    (radius meters (nth (n - 2) waypoints origin)
            (nth (n - 1) waypoints origin)).
  repeat split.
  - apply nth_error_nth'; lia.
  - apply nth_error_nth'; lia.
  - apply line_segments_spec.
  - rewrite buffer_segments_spec, last_radius_last by exact Hlen. reflexivity.
  - unfold segments_of. fold n.
    replace (n - 1) with (S (n - 2)) by lia.
    rewrite seq_S, map_app. simpl map. rewrite last_last. unfold segment_at.
    now replace (n - 2 + 1) with (S (n - 2)) by lia.
  - apply segment_radius_pair.
  - rewrite create_geofence_unfold, last_radius_last by exact Hlen.
    reflexivity.
Qed.

Lemma simplify_body_ignores_distance (m1 m2 tolerance : R)
      (acc : list Geometry) (segment : Geometry) :
  simplify_body m1 tolerance acc segment
  = simplify_body m2 tolerance acc segment.
Proof.
  unfold simplify_body.
  destruct (get_exterior segment); reflexivity.
Qed.

(** C9.  [simplify_geofence] does not depend on [buffer_distance_meters]:
    two calls on the same geofence and tolerance that differ in the distance
    return the same geometry, or raise the same exception. *)
Theorem simplify_geofence_ignores_distance
        (geofence : Geometry) (m1 m2 tolerance : R) :
  simplify_geofence geofence m1 tolerance
  = simplify_geofence geofence m2 tolerance.
Proof.
  unfold simplify_geofence.
  rewrite (for_each_ext _ _ (simplify_body_ignores_distance m1 m2 tolerance)).
  reflexivity.
Qed.

End PipelineProperties.

(* ================================================================= *)
(** ** Properties of the unit converter *)

Section ConverterProperties.
Import Converter.
Local Open Scope R_scope.

Lemma radians_Rabs (lat : R) : cos (radians lat) = cos (radians (Rabs lat)).
Proof.
  unfold Rabs. destruct (Rcase_abs lat) as [Hneg|Hpos]; [|reflexivity].
  rewrite <- (cos_neg (radians (- lat))). f_equal.
  unfold radians. lra.
Qed.

Lemma radians_range (x : R) :
  0 <= x -> x < 90 -> 0 <= radians x < PI / 2.
Proof.
  intros H0 H90. unfold radians.
  pose proof PI_RGT_0 as Hpi.
  split; nra.
Qed.

Lemma meters_per_degree_longitude_pos : 0 < meters_per_degree_longitude.
Proof. unfold meters_per_degree_longitude. lra. Qed.

Lemma cos_radians_pos (lat : R) : Rabs lat < 90 -> 0 < cos (radians lat).
Proof.
  intros Hlat. rewrite radians_Rabs.
  destruct (radians_range (Rabs lat) (Rabs_pos lat) Hlat) as [Hlo Hhi].
  pose proof PI_RGT_0.
  apply cos_gt_0; lra.
Qed.

Lemma cos_radians_decreasing (lat1 lat2 : R) :
  Rabs lat1 <= Rabs lat2 -> Rabs lat2 < 90 ->
  cos (radians lat2) <= cos (radians lat1).
Proof.
  intros Hle Hlt.
  rewrite (radians_Rabs lat1), (radians_Rabs lat2).
  assert (H1 : Rabs lat1 < 90) by lra.
  destruct (radians_range _ (Rabs_pos lat1) H1) as [Hlo1 Hhi1].
  destruct (radians_range _ (Rabs_pos lat2) Hlt) as [Hlo2 Hhi2].
  pose proof PI_RGT_0.
  apply cos_decr_1; try lra.
  unfold radians. nra.
Qed.

(** C8.  For a positive distance, [degrees_latitude] is the same at every
    latitude, and [degrees_longitude] does not decrease when [|latitude|]
    grows, for latitudes with [0 < |latitude| < 90]. *)
Theorem meters_to_degrees_monotone (meters lat1 lat2 : R) :
  0 < meters ->
  0 < Rabs lat1 ->
  Rabs lat1 <= Rabs lat2 ->
  Rabs lat2 < 90 ->
  (forall lat lat' : R,
      fst (meters_to_degrees meters lat) = fst (meters_to_degrees meters lat'))
  /\ snd (meters_to_degrees meters lat1) <= snd (meters_to_degrees meters lat2).
Proof.
  intros Hm _ Hle Hlt. split; [reflexivity|].
  unfold meters_to_degrees; simpl.
  pose proof meters_per_degree_longitude_pos as Hc.
  pose proof (cos_radians_pos lat2 Hlt) as Hpos2.
  pose proof (cos_radians_decreasing lat1 lat2 Hle Hlt) as Hdec.
  unfold Rdiv. apply Rmult_le_compat_l; [lra|].
  apply Rinv_le_contravar.
  - apply Rmult_lt_0_compat; assumption.
  - apply Rmult_le_compat_l; lra.
Qed.

End ConverterProperties.

(* ================================================================= *)
(** ** Properties of the number format *)

Section FormatProperties.
Import Serializer PolyFormat.
Local Open Scope string_scope.

Lemma is_digit_digit_char (d : Z) :
  (0 <= d < 10)%Z -> is_digit (digit_char d) = true.
Proof.
  intros Hd. unfold is_digit, digit_char.
  rewrite nat_ascii_embedding by lia.
  apply andb_true_iff; split; apply Nat.leb_le; lia.
Qed.

Lemma fixed_digits_spec (width : nat) (n : Z) :
  all_digits (fixed_digits width n) = true
  /\ String.length (fixed_digits width n) = width.
Proof.
  induction width as [|w [IHd IHl]]; [split; reflexivity|].
  cbn [fixed_digits all_digits String.length].
  rewrite is_digit_digit_char by (apply Z.mod_pos_bound; reflexivity).
  rewrite IHd, IHl. split; reflexivity.
Qed.

Lemma string_of_uint_digits (d : Decimal.uint) :
  all_digits (NilEmpty.string_of_uint d) = true.
Proof. induction d; simpl; auto. Qed.

Lemma decimal_spec (n : Z) :
  decimal n <> "" /\ all_digits (decimal n) = true.
Proof.
  unfold decimal, NilZero.string_of_uint.
  destruct (N.to_uint (Z.to_N n)) as [|d|d|d|d|d|d|d|d|d|d];
    (split; [discriminate | try reflexivity; apply string_of_uint_digits]).
Qed.

Lemma format_finite_fixed_point (negative : bool) (magnitude : Q) :
  fixed_point 10 (format_finite 10 negative magnitude).
Proof.
  unfold fixed_point, format_finite.
  set (scaled := round_half_even _).
  destruct (decimal_spec (scaled / 10 ^ Z.of_nat 10)) as [Hne Hd].
  destruct (fixed_digits_spec 10 scaled) as [Hfd Hfl].
  destruct negative.
  - exists "-", (decimal (scaled / 10 ^ Z.of_nat 10)),
      (fixed_digits 10 scaled). repeat split; auto.
  - exists "", (decimal (scaled / 10 ^ Z.of_nat 10)),
      (fixed_digits 10 scaled). repeat split; auto.
Qed.

Lemma format_f_fixed_point (x : pyfloat) :
  is_finite x = true -> fixed_point 10 (format_f 10 x).
Proof.
  destruct x; try discriminate; intros _; apply format_finite_fixed_point.
Qed.

Lemma Qle_bool_comp (x y : Q) : (x == y)%Q -> Qle_bool 0 x = Qle_bool 0 y.
Proof.
  intros Hxy.
  destruct (Qle_bool 0 x) eqn:Hx, (Qle_bool 0 y) eqn:Hy; try reflexivity.
  - apply Qle_bool_iff in Hx. rewrite Hxy in Hx.
    apply Qle_bool_iff in Hx. congruence.
  - apply Qle_bool_iff in Hy. rewrite <- Hxy in Hy.
    apply Qle_bool_iff in Hy. congruence.
Qed.

Lemma round_half_even_comp (x y : Q) :
  (x == y)%Q -> round_half_even x = round_half_even y.
Proof.
  intros Hxy. unfold round_half_even.
  rewrite (Qfloor_comp _ _ Hxy).
  assert (Hd : (x - inject_Z (Qfloor y) == y - inject_Z (Qfloor y))%Q)
    by now rewrite Hxy.
  now rewrite (Qcompare_comp _ _ Hd (1 # 2)%Q (1 # 2)%Q (Qeq_refl _)).
Qed.

(** The numeral depends on the value only, not on the fraction that
    denotes it. *)
Lemma format_f_comp (precision : nat) (x y : Q) :
  (x == y)%Q -> format_f precision x = format_f precision y.
Proof.
  intros Hxy. unfold format_f, format_finite.
  rewrite (Qle_bool_comp x y Hxy).
  rewrite (round_half_even_comp
             (Qabs x * inject_Z (10 ^ Z.of_nat precision))%Q
             (Qabs y * inject_Z (10 ^ Z.of_nat precision))%Q)
    by now rewrite Hxy.
  reflexivity.
Qed.

(** Floats that [==] holds equal are written alike, unless they are the two
    zeros. *)
Lemma format_f_equal (precision : nat) (x y : pyfloat) :
  float_eq x y = true -> zero_signs_agree x y = true ->
  format_f precision x = format_f precision y.
Proof.
  destruct x as [p| | | |], y as [q| | | |]; simpl;
    try discriminate; try reflexivity.
  - intros H _. apply Qeq_bool_iff in H. now apply format_f_comp.
  - intros H Hs. rewrite H in Hs. discriminate Hs.
  - intros H Hs. rewrite H in Hs. discriminate Hs.
Qed.

Lemma line_of_equal (a b : vertex) :
  coord_neq a b = false -> vertex_signs_agree a b = true ->
  line_of a = line_of b.
Proof.
  unfold coord_neq, vertex_signs_agree, line_of, vertex_line. intros H Hs.
  apply negb_false_iff, andb_true_iff in H. destruct H as [Hx Hy].
  apply andb_true_iff in Hs. destruct Hs as [Hsx Hsy].
  now rewrite (format_f_equal 10 _ _ Hx Hsx), (format_f_equal 10 _ _ Hy Hsy).
Qed.

End FormatProperties.

(* ================================================================= *)
(** ** Properties of [save_geofence_to_poly] *)

Section SerializerProperties.
Import Serializer PolyFormat.

Lemma io_for_vertices (coords : list vertex) :
  forall f : File,
    io_for coords (fun '(lon, lat) => write (vertex_line lat lon)) f
    = (f ++ map line_of coords, Ok tt).
Proof.
  induction coords as [|[lon lat] rest IH]; intros f; simpl.
  - unfold ret. now rewrite app_nil_r.
  - unfold io_bind, write. rewrite IH, <- app_assoc. reflexivity.
Qed.

Lemma nth_error_last {A : Type} (x d : A) (xs : list A) :
  nth_error (x :: xs) (List.length (x :: xs) - 1) = Some (last (x :: xs) d).
Proof.
  revert x; induction xs as [|y ys IH]; intros x; [reflexivity|].
  specialize (IH y). simpl in *. now rewrite Nat.sub_0_r in IH.
Qed.

Lemma getlast_cons (c : vertex) (rest : list vertex) :
  getlast (c :: rest) = Ok (last (c :: rest) c).
Proof.
  unfold getlast, getitem. now rewrite (nth_error_last c c rest).
Qed.

Lemma write_polygon_ring (polygons : list Polygon) (p : Polygon) (f : File) :
  nonempty_ring p = true ->
  write_polygon polygons p f
  = (f ++ ring_lines (exterior p) ++ separator polygons, Ok tt).
Proof.
  unfold nonempty_ring, write_polygon, separator, ring_lines.
  destruct (exterior p) as [|c rest] eqn:Hring; [discriminate|]. intros _.
  unfold io_bind at 1. rewrite io_for_vertices.
  unfold io_bind at 1. unfold lift at 1. cbn [getitem nth_error].
  unfold io_bind at 1. unfold lift at 1. rewrite getlast_cons.
  unfold io_bind, write, ret.
  destruct (tuple_ne (List.length (c :: rest) =? 1) c (last (c :: rest) c));
    destruct (1 <? List.length polygons);
    rewrite <- ?app_assoc, ?app_nil_r; reflexivity.
Qed.

Lemma write_polygon_empty (polygons : list Polygon) (p : Polygon) (f : File) :
  nonempty_ring p = false ->
  write_polygon polygons p f = (f, Raise IndexError).
Proof.
  unfold nonempty_ring, write_polygon.
  destruct (exterior p) as [|c rest]; [|discriminate]. intros _.
  unfold io_bind, lift, ret; reflexivity.
Qed.

Lemma write_polygons_spec (all : list Polygon) :
  forall (polygons : list Polygon) (f : File),
    io_for polygons (write_polygon all) f
    = (f ++ flat_map (fun p => ring_lines (exterior p) ++ separator all)
                     (rings_before_empty polygons),
       if forallb nonempty_ring polygons then Ok tt else Raise IndexError).
Proof.
  induction polygons as [|p rest IH]; intros f; simpl.
  - unfold ret. now rewrite app_nil_r.
  - unfold io_bind. destruct (nonempty_ring p) eqn:Hp.
    + rewrite write_polygon_ring by exact Hp. rewrite IH. simpl.
      now rewrite <- !app_assoc.
    + rewrite write_polygon_empty by exact Hp. simpl. now rewrite app_nil_r.
Qed.

Lemma write_geofence_spec (geofence : Geometry) (polygons : list Polygon) :
  polygons_of geofence = Some polygons ->
  write_geofence geofence []
  = (header
       :: flat_map (fun p => ring_lines (exterior p) ++ separator polygons)
                   (rings_before_empty polygons)
       ++ (if forallb nonempty_ring polygons then [END] else []),
     if forallb nonempty_ring polygons then Ok tt else Raise IndexError).
Proof.
  intros Hg. unfold write_geofence.
  unfold io_bind at 1. unfold write at 1. cbn [app].
  assert (Hps : (match geofence with
                 | GMultiPolygon geoms => ret geoms
                 | GPolygon p => ret [p]
                 | _ => raise
                          (ValueError
                             "Geofence must be a Polygon or MultiPolygon")
                 end) [header] = ([header], Ok polygons)).
  { destruct geofence; simpl in Hg; inversion Hg; reflexivity. }
  unfold io_bind at 1. rewrite Hps.
  unfold io_bind at 1. rewrite write_polygons_spec.
  destruct (forallb nonempty_ring polygons); [|now rewrite app_nil_r].
  unfold write. reflexivity.
Qed.

Lemma last_map_cons {A B : Type} (g : A -> B) (x d : A) (d' : B)
      (xs : list A) :
  last (map g (x :: xs)) d' = g (last (x :: xs) d).
Proof.
  revert x; induction xs as [|y ys IH]; intros x; [reflexivity|].
  exact (IH y).
Qed.

(** The first vertex line of a ring is the line of its first vertex, and
    so is the last one unless the ring ends at its first vertex with a zero
    of the other sign. *)
Lemma ring_lines_closed (first : vertex) (rest : list vertex) :
  hd_error (ring_lines (first :: rest)) = Some (line_of first)
  /\ (vertex_signs_agree first (last (first :: rest) first) = true ->
      last (ring_lines (first :: rest)) EmptyString = line_of first).
Proof.
  split; [reflexivity|]. intros Hsigns.
  unfold ring_lines.
  destruct (tuple_ne (List.length (first :: rest) =? 1) first
                     (last (first :: rest) first)) eqn:Hne.
  - apply last_last.
  - rewrite app_nil_r, (last_map_cons line_of first first).
    unfold tuple_ne in Hne. apply andb_false_iff in Hne.
    destruct Hne as [Hone|Hneq].
    + apply negb_false_iff, Nat.eqb_eq in Hone.
      destruct rest; [reflexivity|discriminate Hone].
    + symmetry. now apply line_of_equal.
Qed.

End SerializerProperties.

Section SerializerTheorems.
Import Serializer PolyFormat.

(** C10.  A geofence that is neither a [Polygon] nor a [MultiPolygon] makes
    [save_geofence_to_poly] raise [ValueError] once the file has been
    created or truncated and the header written: afterwards the file holds
    the header line and nothing else. *)
Theorem save_rejects_after_header
        (geofence : Geometry) (filename : string) (fs : FileSystem) :
  polygons_of geofence = None ->
  write_geofence geofence []
  = ([header], Raise (ValueError "Geofence must be a Polygon or MultiPolygon"))
  /\ save_geofence_to_poly geofence filename fs
     = (store fs filename header,
        Raise (ValueError "Geofence must be a Polygon or MultiPolygon"))
  /\ fst (save_geofence_to_poly geofence filename fs) filename = Some header.
Proof.
  intros Hg.
  assert (Hw : write_geofence geofence []
               = ([header],
                  Raise (ValueError
                           "Geofence must be a Polygon or MultiPolygon"))).
  { destruct geofence; simpl in Hg; try discriminate; reflexivity. }
  split; [exact Hw|].
  assert (Hs : save_geofence_to_poly geofence filename fs
               = (store fs filename header,
                  Raise (ValueError
                           "Geofence must be a Polygon or MultiPolygon"))).
  { unfold save_geofence_to_poly. rewrite Hw. cbn [String.concat].
    reflexivity. }
  split; [exact Hs|].
  rewrite Hs. unfold store; simpl. now rewrite String.eqb_refl.
Qed.

(** Every [MultiPolygon] of two or more polygons with vertices ends in two
    marker lines: the one written after the last polygon and the final
    one. *)
Lemma multipolygon_ends_with_two_markers (polygons : list Polygon) :
  1 < List.length polygons ->
  forallb nonempty_ring polygons = true ->
  exists front,
    write_geofence (GMultiPolygon polygons) [] = (front ++ [END; END], Ok tt).
Proof.
  intros Hlen Hne.
  rewrite (write_geofence_spec (GMultiPolygon polygons) polygons eq_refl).
  rewrite Hne.
  assert (Hall : rings_before_empty polygons = polygons).
  { clear Hlen. induction polygons as [|p rest IH]; [reflexivity|].
    simpl in *. apply andb_true_iff in Hne. destruct Hne as [Hp Hrest].
    rewrite Hp. now rewrite IH. }
  rewrite Hall. unfold separator.
  destruct (Nat.ltb_spec 1 (List.length polygons)) as [_|]; [|lia].
  destruct (exists_last (l := polygons)) as (front & p & ->).
  { intros ->. simpl in Hlen. lia. }
  exists (header
            :: flat_map (fun q => ring_lines (exterior q) ++ [END]) front
            ++ ring_lines (exterior p)).
  rewrite flat_map_app. simpl. rewrite app_nil_r.
  now rewrite <- !app_assoc.
Qed.

(** C4, as amended.  For a [MultiPolygon] of more than one polygon the
    file has a marker line after the vertex block of every polygon, the last
    one included, and one more marker line at the end: one marker line
    between consecutive blocks and, when every ring has a vertex, two marker
    lines after the vertices of the last polygon. *)
Theorem multipolygon_marker_after_each_polygon (polygons : list Polygon) :
  1 < List.length polygons ->
  let written := rings_before_empty polygons in
  let complete := forallb nonempty_ring polygons in
  write_geofence (GMultiPolygon polygons) []
  = (header
       :: flat_map (fun p => ring_lines (exterior p) ++ [END]) written
       ++ (if complete then [END] else []),
     if complete then Ok tt else Raise IndexError)
  /\ (complete = true ->
      exists front,
        write_geofence (GMultiPolygon polygons) []
        = (front ++ [END; END], Ok tt)).
Proof.
  intros Hlen written complete. split.
  - rewrite (write_geofence_spec (GMultiPolygon polygons) polygons eq_refl).
    unfold separator.
    destruct (Nat.ltb_spec 1 (List.length polygons)) as [_|]; [|lia].
    reflexivity.
  - intros Hcomplete.
    exact (multipolygon_ends_with_two_markers polygons Hlen Hcomplete).
Qed.

(** C4, as stated, fails on a closed and an open square: the file is not the
    layout with a single marker line after the last vertex block, the lines
    that follow the twelve lines up to the last vertex are two marker
    lines. *)
Lemma two_polygons_end_with_two_markers :
  fst (write_geofence (GMultiPolygon [square; open_square]) [])
  <> markers_between [square; open_square]
  /\ skipn 12 (fst (write_geofence (GMultiPolygon [square; open_square]) []))
     = [END; END].
Proof.
  split.
  - intros H. apply (f_equal (@List.length string)) in H.
    vm_compute in H. discriminate H.
  - vm_compute. reflexivity.
Qed.

End SerializerTheorems.

(* ================================================================= *)
(** ** The statements on concrete inputs *)

Section Scenarios.
Import Converter Serializer PolyFormat.

(** Ties go to the even digit, a negative value keeps its sign. *)
Example format_tie : format_f 10 (1 # 2048) = "0.0004882812"%string.
Proof. vm_compute. reflexivity. Qed.

Example format_negative : format_f 10 (- (1 # 3)) = "-0.3333333333"%string.
Proof. vm_compute. reflexivity. Qed.

Example format_degrees :
  format_f 10 (356789 # 10000) = "35.6789000000"%string.
Proof. vm_compute. reflexivity. Qed.

(** A closed square: five vertex lines and the terminator. *)
Example closed_square_lines :
  write_geofence (GPolygon square) []
  = (map (fun s => (s ++ newline)%string)
         ["#saved by Python Script";
          "0.0000000000 0.0000000000";
          "0.0000000000 1.0000000000";
          "1.0000000000 1.0000000000";
          "1.0000000000 0.0000000000";
          "0.0000000000 0.0000000000";
          "END"]%string,
     Ok tt).
Proof. vm_compute. reflexivity. Qed.

(** Two squares: a marker line after each and the final one. *)
Example two_squares_lines :
  write_geofence (GMultiPolygon [square; open_square]) []
  = (map (fun s => (s ++ newline)%string)
         ["#saved by Python Script";
          "0.0000000000 0.0000000000";
          "0.0000000000 1.0000000000";
          "1.0000000000 1.0000000000";
          "1.0000000000 0.0000000000";
          "0.0000000000 0.0000000000";
          "END";
          "0.0000000000 0.0000000000";
          "0.0000000000 1.0000000000";
          "1.0000000000 1.0000000000";
          "1.0000000000 0.0000000000";
          "0.0000000000 0.0000000000";
          "END";
          "END"]%string,
     Ok tt).
Proof. vm_compute. reflexivity. Qed.

(** A polygon without vertices: the header, then [coords[0]] raises. *)
Example empty_polygon_raises :
  write_geofence (GPolygon (mkPolygon [] [])) [] = ([header], Raise IndexError).
Proof. reflexivity. Qed.

Example path3_segments :
  line_segments path3
  = Ok [[(0, 0); (0, 1 # 1000)]; [(0, 1 # 1000); (0, 2 # 1000)]]%Q.
Proof. reflexivity. Qed.

(** C1 on the first segment of [path3]. *)
Lemma buffer_radius_path3 :
  nth_error path3 0 = Some (0, 0)%Q
  /\ nth_error path3 1 = Some (0, 1 # 1000)%Q
  /\ exists r,
      segment_radius 10 [(0, 0); (0, 1 # 1000)]%Q = Ok r
      /\ (fst (meters_to_degrees 10 (mean_latitude (0, 0)%Q (0, 1 # 1000)%Q))
          <= r)%R
      /\ (snd (meters_to_degrees 10 (mean_latitude (0, 0)%Q (0, 1 # 1000)%Q))
          <= r)%R.
Proof.
  split; [reflexivity|split; [reflexivity|]].
  destruct (@buffer_radius_is_conservative_max ring_shapely path3 10 0
              (0, 0)%Q (0, 1 # 1000)%Q eq_refl eq_refl)
    as (segments & buffered & lst & r
        & _ & _ & _ & _ & Hr & _ & _ & Hlat & Hlon).
  exists r. repeat split; assumption.
Defined.

(** C2 on [path3]: three waypoints, two segments, two polygons. *)
Lemma segment_count_path3 :
  2 <= List.length path3
  /\ (0 < 10)%R
  /\ exists segments buffered last,
      line_segments path3 = Ok segments
      /\ @buffer_segments ring_shapely 10 segments = Ok (buffered, last)
      /\ List.length segments = 2
      /\ List.length buffered = 2.
Proof.
  assert (Hlen : 2 <= List.length path3) by (simpl; lia).
  assert (Hpos : (0 < 10)%R) by lra.
  split; [exact Hlen|split; [exact Hpos|]].
  destruct (@segment_count ring_shapely path3 10 Hlen Hpos)
    as (segments & buffered & lst & Hs & Hb & Hls & Hlb & _).
  exists segments, buffered, lst. repeat split; assumption.
Defined.

(** C4, as amended, on the two squares. *)
Lemma two_squares_markers :
  1 < List.length [square; open_square]
  /\ exists front,
      write_geofence (GMultiPolygon [square; open_square]) []
      = (front ++ [END; END], Ok tt).
Proof.
  assert (Hlen : 1 < List.length [square; open_square]) by (simpl; lia).
  split; [exact Hlen|].
  exact (proj2 (multipolygon_marker_after_each_polygon
                  [square; open_square] Hlen) eq_refl).
Defined.

(** C6 on a path of one waypoint. *)
Lemma single_waypoint_fails :
  List.length [(0, 0)%Q] < 2
  /\ exists e, @create_geofence ring_shapely [(0, 0)%Q] 10 = Raise e.
Proof.
  assert (Hlen : List.length [(0, 0)%Q] < 2) by (simpl; lia).
  split; [exact Hlen|].
  destruct (@too_few_waypoints_fails ring_shapely [(0, 0)%Q] 10 Hlen)
    as (e & He & _).
  exists e. exact He.
Defined.

(** C7 on [path3]: the tolerance comes from the second segment. *)
Lemma tolerance_path3 :
  2 <= List.length path3
  /\ exists buffered r,
      segment_radius 10 [(0, 1 # 1000); (0, 2 # 1000)]%Q = Ok r
      /\ @create_geofence ring_shapely path3 10
         = bind (@stitch ring_shapely buffered)
                (fun geofence =>
                   Ok (@simplify ring_shapely geofence (r / 2)%R true)).
Proof.
  assert (Hlen : 2 <= List.length path3) by (simpl; lia).
  split; [exact Hlen|].
  destruct (@simplify_tolerance_is_half_last_radius ring_shapely path3 10 Hlen)
    as (a & b & segments & buffered & r & Ha & Hb & _ & _ & _ & Hr & Hc).
  simpl in Ha, Hb.
  injection Ha as <-. injection Hb as <-.
  exists buffered, r. split; [exact Hr|exact Hc].
Defined.

(** C8 at ten and twenty degrees. *)
Lemma monotone_at_10_and_20 :
  (0 < 10)%R
  /\ (0 < Rabs 10)%R
  /\ (Rabs 10 <= Rabs 20)%R
  /\ (Rabs 20 < 90)%R
  /\ (snd (meters_to_degrees 10 10) <= snd (meters_to_degrees 10 20))%R.
Proof.
  assert (H10 : Rabs 10 = 10%R) by (apply Rabs_pos_eq; lra).
  assert (H20 : Rabs 20 = 20%R) by (apply Rabs_pos_eq; lra).
  assert (Hm : (0 < 10)%R) by lra.
  assert (H1 : (0 < Rabs 10)%R) by (rewrite H10; lra).
  assert (H2 : (Rabs 10 <= Rabs 20)%R) by (rewrite H10, H20; lra).
  assert (H3 : (Rabs 20 < 90)%R) by (rewrite H20; lra).
  repeat (split; [assumption|]).
  exact (proj2 (meters_to_degrees_monotone 10 10 20 Hm H1 H2 H3)).
Defined.

(** C10 on a point. *)
Lemma save_point_rejected :
  polygons_of (GPoint (0, 0)%Q) = None
  /\ fst (save_geofence_to_poly (GPoint (0, 0)%Q) "fence.poly" no_files)
         "fence.poly"%string
     = Some header.
Proof.
  split; [reflexivity|].
  exact (proj2 (proj2 (save_rejects_after_header
                         (GPoint (0, 0)%Q) "fence.poly"%string no_files
                         eq_refl))).
Defined.

End Scenarios.

(* ================================================================= *)
(** ** Properties of the string operations of the reader *)

Section ReaderStrings.
Import Reader.
Local Open Scope string_scope.

Lemma for_each_app {A St : Type} (body : St -> A -> result St)
      (xs ys : list A) (st : St) :
  for_each body (xs ++ ys) st = bind (for_each body xs st) (for_each body ys).
Proof.
  revert st; induction xs as [|x xs IH]; intros st; simpl; [reflexivity|].
  destruct (body st x); simpl; auto.
Qed.

Lemma split_nonempty (sep : ascii) (s : string) : split sep s <> [].
Proof.
  destruct s as [|c rest]; simpl; [discriminate|].
  destruct (Ascii.eqb c sep); [discriminate|].
  destruct (split sep rest); discriminate.
Qed.

Lemma split_no_sep (sep : ascii) (s : string) :
  no_char sep s = true -> split sep s = [s].
Proof.
  induction s as [|c rest IH]; simpl; [reflexivity|].
  intros H. apply andb_true_iff in H. destruct H as [Hc Hrest].
  apply negb_true_iff in Hc. rewrite Hc, (IH Hrest). reflexivity.
Qed.

Lemma split_app_sep (sep : ascii) (a b : string) :
  no_char sep a = true ->
  split sep (a ++ String sep b) = a :: split sep b.
Proof.
  induction a as [|c rest IH]; simpl.
  - intros _. now rewrite Ascii.eqb_refl.
  - intros H. apply andb_true_iff in H. destruct H as [Hc Hrest].
    apply negb_true_iff in Hc. rewrite Hc, (IH Hrest). reflexivity.
Qed.

(** Splitting undoes joining, for fields without the separator. *)
Lemma split_concat (sep : ascii) (fields : list string) :
  fields <> [] ->
  Forall (fun f => no_char sep f = true) fields ->
  split sep (String.concat (String sep "") fields) = fields.
Proof.
  induction fields as [|f [|g more] IH]; intros Hne Hall.
  - congruence.
  - simpl. apply split_no_sep. now inversion Hall.
  - inversion Hall as [|? ? Hf Hrest]; subst.
    change (String.concat (String sep "") (f :: g :: more))
      with (f ++ String sep (String.concat (String sep "") (g :: more))).
    rewrite split_app_sep by exact Hf.
    rewrite IH; [reflexivity|discriminate|exact Hrest].
Qed.

Lemma lstrip_text (s : string) : starts_with_text s = true -> lstrip s = s.
Proof.
  destruct s as [|c rest]; simpl; [discriminate|].
  intros H. apply negb_true_iff in H. now rewrite H.
Qed.

Lemma rstrip_all_space (s : string) : all_space s = true -> rstrip s = "".
Proof.
  induction s as [|c rest IH]; simpl; [reflexivity|].
  intros H. apply andb_true_iff in H. destruct H as [Hc Hrest].
  now rewrite (IH Hrest), Hc.
Qed.

Lemma lstrip_all_space (s : string) : all_space s = true -> lstrip s = "".
Proof.
  induction s as [|c rest IH]; simpl; [reflexivity|].
  intros H. apply andb_true_iff in H. destruct H as [Hc Hrest].
  rewrite Hc. exact (IH Hrest).
Qed.

Lemma rstrip_app_space (s w : string) :
  all_space w = true -> rstrip (s ++ w) = rstrip s.
Proof.
  intros Hw. induction s as [|c rest IH]; simpl.
  - now apply rstrip_all_space.
  - now rewrite IH.
Qed.

Lemma rstrip_text (s : string) : ends_with_text s = true -> rstrip s = s.
Proof.
  induction s as [|c rest IH]; [discriminate|].
  destruct rest as [|d rest'].
  - simpl. intros H. apply negb_true_iff in H. now rewrite H.
  - intros H. change (ends_with_text (String d rest') = true) in H.
    specialize (IH H).
    change (rstrip (String c (String d rest')))
      with (match rstrip (String d rest') with
            | EmptyString =>
                if is_space c then EmptyString else String c EmptyString
            | kept => String c kept
            end).
    now rewrite IH.
Qed.

Lemma starts_with_text_app (a b : string) :
  starts_with_text a = true -> starts_with_text (a ++ b) = true.
Proof. destruct a; simpl; [discriminate|auto]. Qed.

Lemma ends_with_text_app (a b : string) :
  ends_with_text b = true -> ends_with_text (a ++ b) = true.
Proof.
  intros Hb. induction a as [|c rest IH]; [exact Hb|].
  simpl. destruct (rest ++ b) eqn:Hrb; [discriminate IH|exact IH].
Qed.

Lemma strip_text_then_space (s w : string) :
  starts_with_text s = true ->
  ends_with_text s = true ->
  all_space w = true ->
  strip (s ++ w) = s.
Proof.
  intros Hs He Hw. unfold strip.
  rewrite lstrip_text by now apply starts_with_text_app.
  rewrite rstrip_app_space by exact Hw.
  now apply rstrip_text.
Qed.

Lemma concat_starts_with_text (sep : string) (f : string)
      (more : list string) :
  starts_with_text f = true ->
  starts_with_text (String.concat sep (f :: more)) = true.
Proof.
  intros Hf. destruct more as [|g more]; [exact Hf|].
  change (String.concat sep (f :: g :: more))
    with (f ++ sep ++ String.concat sep (g :: more)).
  now apply starts_with_text_app.
Qed.

Lemma concat_ends_with_text (sep : string) (fields : list string) :
  ends_with_text (last fields "") = true ->
  ends_with_text (String.concat sep fields) = true.
Proof.
  induction fields as [|f [|g more] IH]; intros H.
  - discriminate H.
  - exact H.
  - change (String.concat sep (f :: g :: more))
      with (f ++ sep ++ String.concat sep (g :: more)).
    apply ends_with_text_app, ends_with_text_app, IH. exact H.
Qed.

End ReaderStrings.

(* ================================================================= *)
(** ** Properties of [read_waypoints] *)

Section ReaderProperties.
Import Reader.
Context {builtins : PyFloat}.
Local Open Scope string_scope.

Lemma read_loop_acc (file : list string) :
  forall acc : list coord,
    for_each read_body file acc
    = bind (for_each read_body file []) (fun w => Ok (acc ++ w)%list).
Proof.
  induction file as [|line rest IH]; intros acc; simpl.
  - now rewrite app_nil_r.
  - unfold read_body at 1 3.
    destruct (String.prefix "QGC" line); simpl; [apply IH|].
    destruct (read_line line) as [wp|e]; simpl; [|reflexivity].
    rewrite (IH (acc ++ [wp])%list), (IH [wp]).
    destruct (for_each read_body rest []) as [w|e]; simpl; [|reflexivity].
    now rewrite <- app_assoc.
Qed.

Lemma read_waypoints_cons (line : string) (rest : list string) :
  read_waypoints (line :: rest)
  = if is_header line
    then read_waypoints rest
    else bind (read_line line)
              (fun wp => bind (read_waypoints rest)
                              (fun w => Ok (wp :: w))).
Proof.
  unfold read_waypoints, is_header; simpl. unfold read_body at 1.
  destruct (String.prefix "QGC" line); simpl; [reflexivity|].
  destruct (read_line line) as [wp|e]; simpl; [|reflexivity].
  apply (read_loop_acc rest [wp]).
Qed.

Lemma read_line_fields (line : string) (wp : coord) :
  read_line line = Ok wp
  <-> exists lat_s lon_s,
      nth_error (fields_of line) 8 = Some lat_s
      /\ nth_error (fields_of line) 9 = Some lon_s
      /\ py_float lat_s = Ok (snd wp)
      /\ py_float lon_s = Ok (fst wp).
Proof.
  unfold read_line, fields_of, getitem.
  generalize (split tab (strip line)) as parts; intros parts. split.
  - destruct (nth_error parts 8) as [p8|]; cbn [bind]; [|discriminate].
    destruct (py_float p8) as [lat|] eqn:Hlat; cbn [bind]; [|discriminate].
    destruct (nth_error parts 9) as [p9|]; cbn [bind]; [|discriminate].
    destruct (py_float p9) as [lon|] eqn:Hlon; cbn [bind]; [|discriminate].
    intros H. injection H as <-. exists p8, p9. auto.
  - intros (lat_s & lon_s & -> & -> & Hlat & Hlon); cbn [bind].
    rewrite Hlat; cbn [bind]. rewrite Hlon; cbn [bind]. now destruct wp.
Qed.

Lemma read_line_short (line : string) :
  List.length (fields_of line) <= 8 -> read_line line = Raise IndexError.
Proof.
  intros Hlen. unfold read_line, getitem. fold (fields_of line).
  now rewrite (proj2 (nth_error_None (fields_of line) 8) Hlen).
Qed.

Lemma all_space_not_header (line : string) :
  all_space line = true -> is_header line = false.
Proof.
  destruct line as [|c rest]; [reflexivity|].
  intros H. cbn [all_space] in H. apply andb_true_iff in H.
  destruct H as [Hc _]. unfold is_header.
  change (String.prefix "QGC" (String c rest))
    with (if Ascii.ascii_dec "Q" c then String.prefix "GC" rest else false).
  destruct (Ascii.ascii_dec "Q" c) as [<-|Hne]; [|reflexivity].
  vm_compute in Hc. discriminate Hc.
Qed.

Lemma read_waypoints_app_raise (good : list string) (wps : list coord)
      (line : string) (rest : list string) (e : exn) :
  read_waypoints good = Ok wps ->
  is_header line = false ->
  read_line line = Raise e ->
  read_waypoints (good ++ line :: rest) = Raise e.
Proof.
  intros Hgood Hh Hline. unfold read_waypoints in *.
  rewrite for_each_app, Hgood. simpl. unfold read_body at 1.
  unfold is_header in Hh. rewrite Hh, Hline. reflexivity.
Qed.

Lemma read_waypoints_length
      (file : list string) (waypoints : list coord) :
  read_waypoints file = Ok waypoints ->
  List.length waypoints = List.length (data_lines file).
Proof.
  revert waypoints; induction file as [|line rest IH]; intros waypoints.
  - unfold read_waypoints; simpl. now intros H; injection H as <-.
  - rewrite read_waypoints_cons. unfold data_lines; simpl.
    fold (data_lines rest).
    destruct (is_header line); simpl; [apply IH|].
    destruct (read_line line) as [wp|]; simpl; [|discriminate].
    destruct (read_waypoints rest) as [w|]; simpl; [|discriminate].
    intros H; injection H as <-. simpl. f_equal. now apply IH.
Qed.

(** X1.  Lines that start with [QGC] are skipped wherever they stand: the
    file and the file without them give the same waypoints or the same
    exception. *)
Theorem read_waypoints_skips_headers (file : list string) :
  read_waypoints file = read_waypoints (data_lines file).
Proof.
  induction file as [|line rest IH]; [reflexivity|].
  rewrite read_waypoints_cons. unfold data_lines; simpl.
  destruct (is_header line) eqn:Hh; simpl; [exact IH|].
  fold (data_lines rest). rewrite read_waypoints_cons, Hh, IH. reflexivity.
Qed.

(** X2.  The reader returns [waypoints] exactly when there is one waypoint
    per line that does not start with [QGC], in the order of the lines, the
    waypoint of a line being [(float(f9), float(f8))] for its tab-separated
    fields 8 and 9 after stripping: longitude first, from the later
    column. *)
Theorem read_waypoints_one_per_data_line
        (file : list string) (waypoints : list coord) :
  read_waypoints file = Ok waypoints
  <-> Forall2
        (fun line wp =>
           exists lat_s lon_s,
             nth_error (fields_of line) 8 = Some lat_s
             /\ nth_error (fields_of line) 9 = Some lon_s
             /\ py_float lat_s = Ok (snd wp)
             /\ py_float lon_s = Ok (fst wp))
        (data_lines file) waypoints.
Proof.
  revert waypoints; induction file as [|line rest IH]; intros waypoints.
  - unfold read_waypoints; simpl. split.
    + intros H; injection H as <-. constructor.
    + intros H; inversion H. reflexivity.
  - rewrite read_waypoints_cons. unfold data_lines; simpl.
    fold (data_lines rest).
    destruct (is_header line); simpl; [apply IH|]. split.
    + destruct (read_line line) as [wp|] eqn:Hline; simpl; [|discriminate].
      destruct (read_waypoints rest) as [w|]; simpl; [|discriminate].
      intros H; injection H as <-. constructor.
      * now apply read_line_fields.
      * now apply IH.
    + intros H. inversion H as [|? wp ? w Hwp Hrest]; subst.
      apply read_line_fields in Hwp. rewrite Hwp; simpl.
      apply IH in Hrest. rewrite Hrest. reflexivity.
Qed.

(** X3.  A line that does not start with [QGC] and has fewer than nine
    tab-separated fields after stripping makes the reader raise
    [IndexError], whatever the lines after it hold: no waypoint is
    returned. *)
Theorem read_waypoints_short_line
        (good : list string) (waypoints : list coord)
        (line : string) (rest : list string) :
  read_waypoints good = Ok waypoints ->
  is_header line = false ->
  List.length (fields_of line) <= 8 ->
  read_waypoints (good ++ line :: rest) = Raise IndexError.
Proof.
  intros Hgood Hh Hlen.
  apply (read_waypoints_app_raise good waypoints); auto.
  now apply read_line_short.
Qed.

(** X4.  A blank line, one of white space only, is not skipped: it has a
    single empty field and makes the reader raise [IndexError]. *)
Theorem read_waypoints_blank_line
        (good : list string) (waypoints : list coord)
        (line : string) (rest : list string) :
  read_waypoints good = Ok waypoints ->
  all_space line = true ->
  fields_of line = [""]
  /\ read_waypoints (good ++ line :: rest) = Raise IndexError.
Proof.
  intros Hgood Hline.
  assert (Hf : fields_of line = [""]).
  { unfold fields_of, strip. now rewrite (lstrip_all_space line Hline). }
  split; [exact Hf|].
  apply (read_waypoints_app_raise good waypoints); auto.
  - now apply all_space_not_header.
  - apply read_line_short. rewrite Hf. simpl. lia.
Qed.

(** X5.  A line made of fields without tabs, joined by tabs and followed
    by white space only (a newline, a carriage return and a newline,
    nothing), the first field starting and the last field ending with a
    character that is not white space, has exactly these fields; when
    fields 8 and 9 are among them its waypoint is [(float(f9), float(f8))]. *)
Theorem read_line_of_fields (fields : list string) (eol : string) :
  Forall (fun f => no_char tab f = true) fields ->
  starts_with_text (hd "" fields) = true ->
  ends_with_text (last fields "") = true ->
  all_space eol = true ->
  fields_of (String.concat (String tab "") fields ++ eol) = fields
  /\ forall lat_s lon_s : string,
      nth_error fields 8 = Some lat_s ->
      nth_error fields 9 = Some lon_s ->
      read_line (String.concat (String tab "") fields ++ eol)
      = bind (py_float lat_s)
             (fun lat => bind (py_float lon_s) (fun lon => Ok (lon, lat))).
Proof.
  intros Htabs Hstart Hend Heol.
  assert (Hne : fields <> []) by (intros ->; discriminate Hstart).
  assert (Hf : fields_of (String.concat (String tab "") fields ++ eol)
               = fields).
  { unfold fields_of. rewrite strip_text_then_space.
    - now apply split_concat.
    - destruct fields as [|f more]; [congruence|].
      now apply concat_starts_with_text.
    - now apply concat_ends_with_text.
    - exact Heol. }
  split; [exact Hf|].
  intros lat_s lon_s H8 H9.
  unfold read_line, getitem.
  fold (fields_of (String.concat (String tab "") fields ++ eol)).
  rewrite Hf, H8, H9. reflexivity.
Qed.

End ReaderProperties.

(* ================================================================= *)
(** ** Properties of the buffer radius *)

Section RadiusProperties.
Import Converter.
Local Open Scope R_scope.

Lemma latitude_below_longitude (meters lat : R) :
  0 <= meters -> Rabs lat < 90 ->
  fst (meters_to_degrees meters lat) <= snd (meters_to_degrees meters lat)
  /\ meters / meters_per_degree_longitude
     <= snd (meters_to_degrees meters lat).
Proof.
  intros Hm Hlat. unfold meters_to_degrees; simpl.
  pose proof (cos_radians_pos lat Hlat) as Hcos.
  pose proof (COS_bound (radians lat)) as [_ Hle].
  pose proof meters_per_degree_longitude_pos as Hc.
  assert (Hprod : 0 < meters_per_degree_longitude * cos (radians lat))
    by now apply Rmult_lt_0_compat.
  assert (Hup : meters_per_degree_longitude * cos (radians lat)
                <= meters_per_degree_longitude) by nra.
  unfold Rdiv. split; apply Rmult_le_compat_l; try exact Hm;
    apply Rinv_le_contravar; try exact Hprod.
  - unfold meters_per_degree_latitude, meters_per_degree_longitude in *. lra.
  - exact Hup.
Qed.

(** X7.  For a distance that is not negative and a mean latitude strictly
    between -90 and 90 degrees, the radius of a segment is always the
    longitude conversion, [meters / (87870.18 * cos(latitude))]: it is at
    least the latitude conversion and at least [meters / 87870.18]. *)
Theorem segment_radius_is_longitude_conversion
        (meters : R) (a b : coord) :
  0 <= meters ->
  Rabs (mean_latitude a b) < 90 ->
  segment_radius meters [a; b]
  = Ok (meters / (meters_per_degree_longitude
                  * cos (radians (mean_latitude a b))))
  /\ meters / meters_per_degree_latitude
     <= meters / (meters_per_degree_longitude
                  * cos (radians (mean_latitude a b)))
  /\ meters / meters_per_degree_longitude
     <= meters / (meters_per_degree_longitude
                  * cos (radians (mean_latitude a b))).
Proof.
  intros Hm Hlat.
  destruct (latitude_below_longitude meters _ Hm Hlat) as [Hle Hlow].
  unfold meters_to_degrees in Hle, Hlow; simpl in Hle, Hlow.
  split; [|split; assumption].
  rewrite segment_radius_pair. unfold radius, meters_to_degrees; simpl.
  now rewrite Rmax_right.
Qed.

(** X8.  For a negative distance and a mean latitude strictly between -90
    and 90 degrees, the radius is the latitude conversion
    [meters / 111045], a negative number. *)
Theorem segment_radius_of_negative_distance
        (meters : R) (a b : coord) :
  meters < 0 ->
  Rabs (mean_latitude a b) < 90 ->
  segment_radius meters [a; b] = Ok (meters / meters_per_degree_latitude)
  /\ meters / meters_per_degree_latitude < 0.
Proof.
  intros Hm Hlat.
  assert (Hpos : 0 <= - meters) by lra.
  destruct (latitude_below_longitude (- meters) _ Hpos Hlat) as [Hle _].
  unfold meters_to_degrees in Hle; simpl in Hle.
  unfold Rdiv in Hle. rewrite !Ropp_mult_distr_l_reverse in Hle.
  apply Ropp_le_cancel in Hle.
  split.
  - rewrite segment_radius_pair. unfold radius, meters_to_degrees; simpl.
    now rewrite Rmax_left.
  - unfold meters_per_degree_latitude, Rdiv. 
    apply Rmult_neg_pos; [exact Hm|]. apply Rinv_0_lt_compat. lra.
Qed.

(** X10.  The radius of a segment depends on its end points only through
    the absolute value of their mean latitude: not on the longitudes, not on
    the direction of the segment, not on the hemisphere. *)
Theorem segment_radius_depends_on_mean_latitude
        (meters : R) (a b a' b' : coord) :
  Rabs (mean_latitude a b) = Rabs (mean_latitude a' b') ->
  segment_radius meters [a; b] = segment_radius meters [a'; b'].
Proof.
  intros Habs. rewrite !segment_radius_pair. f_equal.
  unfold radius, meters_to_degrees; simpl.
  rewrite (radians_Rabs (mean_latitude a b)),
    (radians_Rabs (mean_latitude a' b')), Habs.
  reflexivity.
Qed.

End RadiusProperties.

(* ================================================================= *)
(** ** Properties of the segments of a path *)

Section PathProperties.
Context {shapely : Shapely}.
Import Converter Reader.

Lemma segments_of_nth_inv (waypoints : list coord) (i : nat)
      (s : LineString) :
  nth_error (segments_of waypoints) i = Some s ->
  S i < List.length waypoints /\ s = segment_at waypoints i.
Proof.
  unfold segments_of. rewrite nth_error_map, nth_error_seq.
  destruct (Nat.ltb_spec i (List.length waypoints - 1)) as [Hlt|Hge];
    simpl; [|discriminate].
  intros H; injection H as <-. split; [lia|reflexivity].
Qed.

Lemma create_geofence_needs_two (waypoints : list coord) (meters : R) :
  List.length waypoints < 2 ->
  exists e, create_geofence waypoints meters = Raise e.
Proof.
  intros Hlen. rewrite create_geofence_unfold.
  assert (Hsegs : segments_of waypoints = []).
  { unfold segments_of.
    replace (List.length waypoints - 1) with 0 by lia. reflexivity. }
  unfold buffers_of, stitch. rewrite Hsegs. simpl.
  destruct (polygonize (linemerge [])) as [|p [|q more]]; simpl; eauto.
Qed.

(** X6.  A mission file with fewer than two lines that do not start with
    [QGC] never gives a geofence: reading it and passing the waypoints to
    [create_geofence] raises, in the reader or in [create_geofence]. *)
Theorem mission_needs_two_data_lines
        {builtins : PyFloat} (file : list string) (meters : R) :
  List.length (data_lines file) < 2 ->
  exists e,
    bind (read_waypoints file)
         (fun waypoints => create_geofence waypoints meters)
    = Raise e.
Proof.
  intros Hlen.
  destruct (read_waypoints file) as [waypoints|e] eqn:Hread; simpl.
  - apply create_geofence_needs_two.
    apply read_waypoints_length in Hread. lia.
  - exists e. reflexivity.
Qed.

(** X11.  The segments form a chain along the path: segment [i] ends at the
    waypoint where segment [i + 1] starts, waypoint [i + 1]. *)
Theorem consecutive_segments_share_a_waypoint
        (waypoints : list coord) (segments : list LineString)
        (i : nat) (s t : LineString) :
  line_segments waypoints = Ok segments ->
  nth_error segments i = Some s ->
  nth_error segments (S i) = Some t ->
  exists a b c,
    s = [a; b] /\ t = [b; c]
    /\ nth_error waypoints i = Some a
    /\ nth_error waypoints (S i) = Some b
    /\ nth_error waypoints (S (S i)) = Some c.
Proof.
  rewrite line_segments_spec. intros H; injection H as <-.
  fold (segments_of waypoints). intros Hs Ht.
  apply segments_of_nth_inv in Hs. destruct Hs as [Hi ->].
  apply segments_of_nth_inv in Ht. destruct Ht as [Hi' ->].
  exists (nth i waypoints origin), (nth (S i) waypoints origin),
    (nth (S (S i)) waypoints origin).
  unfold segment_at. rewrite !Nat.add_1_r.
  repeat split; apply nth_error_nth'; lia.
Qed.

Lemma rev_seq (k : nat) :
  rev (seq 0 k) = map (fun i => k - 1 - i) (seq 0 k).
Proof.
  induction k as [|k IH]; [reflexivity|].
  rewrite seq_S at 1. rewrite rev_app_distr. simpl rev. simpl app.
  rewrite IH. simpl seq. simpl map. f_equal; [lia|].
  rewrite <- seq_shift. rewrite map_map.
  apply map_ext. intros i. lia.
Qed.

Lemma segments_of_rev (waypoints : list coord) :
  segments_of (rev waypoints) = rev (map (@rev coord) (segments_of waypoints)).
Proof.
  unfold segments_of. rewrite length_rev.
  set (n := List.length waypoints).
  rewrite <- !map_rev. rewrite map_map, rev_seq, map_map.
  apply map_ext_in. intros i Hi. apply in_seq in Hi.
  unfold segment_at. simpl rev. simpl app.
  rewrite !rev_nth by (fold n; lia). fold n.
  replace (n - S (i + 1)) with (n - 1 - 1 - i) by lia.
  replace (n - S i) with (n - 1 - 1 - i + 1) by lia.
  reflexivity.
Qed.

(** X12.  Reversing the path reverses the list of segments and each
    segment, and a reversed segment has the radius of the segment: the
    reversed path is buffered by the same radii, in reverse order. *)
Theorem reversed_path_segments (waypoints : list coord) (meters : R) :
  exists segments,
    line_segments waypoints = Ok segments
    /\ line_segments (rev waypoints) = Ok (rev (map (@rev coord) segments))
    /\ Forall (fun seg =>
                 segment_radius meters (rev seg) = segment_radius meters seg)
              segments.
Proof.
  exists (segments_of waypoints).
  split; [apply line_segments_spec|].
  split; [rewrite line_segments_spec; fold (segments_of (rev waypoints));
          now rewrite segments_of_rev|].
  apply Forall_forall. intros seg Hin.
  unfold segments_of in Hin. apply in_map_iff in Hin.
  destruct Hin as (i & <- & _). unfold segment_at. simpl rev. simpl app.
  rewrite !segment_radius_pair. f_equal.
  unfold radius, mean_latitude.
  now rewrite (Rplus_comm (Q2R (snd (nth (i + 1) waypoints origin)))).
Qed.

End PathProperties.

(* ================================================================= *)
(** ** Further properties of [simplify_geofence] *)

Section SimplifierProperties.
Context {shapely : Shapely}.
Import PolyFormat.

(** X13.  Given anything but a [Polygon] or a [MultiPolygon],
    [simplify_geofence] raises [AttributeError] at the first [.exterior],
    before any geometry is simplified or merged. *)
Theorem simplify_geofence_rejects_other_geometries
        (geofence : Geometry) (meters tolerance : R) :
  polygons_of geofence = None ->
  simplify_geofence geofence meters tolerance = Raise AttributeError.
Proof.
  destruct geofence; simpl; intros H; try discriminate H; reflexivity.
Qed.

Lemma simplify_loop (meters tolerance : R) (polygons : list Polygon) :
  for_each (simplify_body meters tolerance) (map GPolygon polygons) []
  = Ok (map (fun p => simplify (GPolygon p) tolerance true) polygons).
Proof.
  rewrite (for_each_collect _ (fun seg => simplify seg tolerance true)).
  - now rewrite map_map.
  - intros acc seg Hin. apply in_map_iff in Hin.
    destruct Hin as (p & <- & _). reflexivity.
Qed.

Lemma exterior_loop (polygons : list Polygon) :
  for_each (fun acc seg => bind (get_exterior seg)
                                (fun r => Ok (acc ++ [r])))
           (map GPolygon polygons) []
  = Ok (map exterior polygons).
Proof.
  rewrite (for_each_collect
             _ (fun seg => match seg with
                           | GPolygon p => exterior p
                           | _ => []
                           end)).
  - now rewrite map_map.
  - intros acc seg Hin. apply in_map_iff in Hin.
    destruct Hin as (p & <- & _). reflexivity.
Qed.

(** X14.  When simplification turns each polygon of the geofence into a
    polygon, [simplified p], the merge receives the exterior rings of the
    simplified polygons, one per polygon and in their order; the holes play
    no part.  A single merged line becomes the polygon that is simplified
    once more, several lines become a [MultiPolygon] that is simplified once
    more, and any other merge result raises [ValueError]. *)
Theorem simplify_geofence_merges_simplified_exteriors
        (geofence : Geometry) (polygons : list Polygon)
        (simplified : Polygon -> Polygon) (meters tolerance : R) :
  polygons_of geofence = Some polygons ->
  (forall p, In p polygons ->
             simplify (GPolygon p) tolerance true = GPolygon (simplified p)) ->
  simplify_geofence geofence meters tolerance
  = match linemerge (map (fun p => exterior (simplified p)) polygons) with
    | GLineString l =>
        bind (Polygon_of_line l)
             (fun q => Ok (simplify (GPolygon q) tolerance true))
    | GMultiLineString lines =>
        bind (for_each (fun acc line =>
                          bind (Polygon_of_line line)
                               (fun q => Ok (acc ++ [q])))
                       lines [])
             (fun qs => Ok (simplify (GMultiPolygon qs) tolerance true))
    | _ => Raise (ValueError "Unexpected geometry type after merging")
    end.
Proof.
  intros Hg Hsimp.
  assert (Hsegs : match geofence with
                  | GMultiPolygon geoms => map GPolygon geoms
                  | _ => [geofence]
                  end = map GPolygon polygons).
  { destruct geofence; simpl in Hg; try discriminate Hg;
      injection Hg as <-; reflexivity. }
  unfold simplify_geofence. rewrite Hsegs, simplify_loop.
  cbn [bind].
  rewrite (map_ext_in _ (fun p => GPolygon (simplified p)) _ Hsimp).
  rewrite <- (map_map simplified GPolygon), exterior_loop.
  cbn [bind]. rewrite map_map.
  destruct (linemerge (map (fun p => exterior (simplified p)) polygons));
    try reflexivity.
  - destruct (Polygon_of_line l); reflexivity.
  - destruct (for_each _ lines []); reflexivity.
Qed.

End SimplifierProperties.

(* ================================================================= *)
(** ** Further properties of [save_geofence_to_poly] *)

Section SerializerMore.
Import Serializer PolyFormat Closing.

Lemma lines_depend_on_exteriors (sep : list string) :
  forall ps qs : list Polygon,
    map exterior ps = map exterior qs ->
    flat_map (fun p => ring_lines (exterior p) ++ sep) (rings_before_empty ps)
    = flat_map (fun p => ring_lines (exterior p) ++ sep)
               (rings_before_empty qs)
    /\ forallb nonempty_ring ps = forallb nonempty_ring qs.
Proof.
  induction ps as [|p ps IH]; intros [|q qs] Hmap; try discriminate Hmap.
  - split; reflexivity.
  - simpl in Hmap. injection Hmap as Hpq Hrest.
    destruct (IH qs Hrest) as [Hlines Hall].
    assert (Hne : nonempty_ring p = nonempty_ring q)
      by (unfold nonempty_ring; now rewrite Hpq).
    cbn [rings_before_empty forallb]. rewrite Hne.
    destruct (nonempty_ring q); cbn [flat_map andb]; [|split; reflexivity].
    rewrite Hpq, Hlines, Hall. split; reflexivity.
Qed.

(** X15.  The file depends on the geofence only through the list of
    exterior rings: holes are never written, and a [MultiPolygon] of one
    polygon is written like that polygon. *)
Theorem save_depends_on_exterior_rings
        (g1 g2 : Geometry) (ps1 ps2 : list Polygon)
        (filename : string) (fs : FileSystem) :
  polygons_of g1 = Some ps1 ->
  polygons_of g2 = Some ps2 ->
  map exterior ps1 = map exterior ps2 ->
  save_geofence_to_poly g1 filename fs = save_geofence_to_poly g2 filename fs.
Proof.
  intros H1 H2 Hmap. unfold save_geofence_to_poly.
  rewrite (write_geofence_spec g1 ps1 H1), (write_geofence_spec g2 ps2 H2).
  assert (Hsep : separator ps1 = separator ps2).
  { unfold separator.
    now rewrite <- (length_map exterior ps1), Hmap, length_map. }
  destruct (lines_depend_on_exteriors (separator ps2) ps1 ps2 Hmap)
    as [Hlines Hall].
  now rewrite Hsep, Hlines, Hall.
Qed.

Lemma tuple_ne_same (same_object : bool) (c : vertex) :
  coord_neq c c = false -> tuple_ne same_object c c = false.
Proof. unfold tuple_ne. intros ->. apply andb_false_r. Qed.

Lemma ring_lines_close_ring (p : Polygon) :
  starts_without_nan p = true ->
  ring_lines (close_ring (exterior p)) = ring_lines (exterior p).
Proof.
  unfold starts_without_nan.
  destruct (exterior p) as [|first rest]; [reflexivity|].
  intros Hsame. apply negb_true_iff in Hsame.
  unfold close_ring.
  destruct (tuple_ne (List.length (first :: rest) =? 1) first
                     (last (first :: rest) first)) eqn:Hne;
    [|reflexivity].
  change ((first :: rest) ++ [first]) with (first :: (rest ++ [first])).
  unfold ring_lines. rewrite Hne.
  change (first :: (rest ++ [first])) with ((first :: rest) ++ [first]).
  rewrite last_last, (tuple_ne_same _ first Hsame), map_app, app_nil_r.
  reflexivity.
Qed.

Lemma close_ring_nonempty (p : Polygon) :
  nonempty_ring (close_polygon p) = nonempty_ring p.
Proof.
  unfold nonempty_ring, close_polygon, close_ring; simpl.
  destruct (exterior p) as [|first rest]; [reflexivity|].
  destruct (tuple_ne _ first (last (first :: rest) first)); reflexivity.
Qed.

Lemma closed_lines (sep : list string) (polygons : list Polygon) :
  forallb starts_without_nan polygons = true ->
  flat_map (fun p => ring_lines (exterior p) ++ sep)
           (rings_before_empty (map close_polygon polygons))
  = flat_map (fun p => ring_lines (exterior p) ++ sep)
             (rings_before_empty polygons)
  /\ forallb nonempty_ring (map close_polygon polygons)
     = forallb nonempty_ring polygons.
Proof.
  induction polygons as [|p ps IH]; [split; reflexivity|].
  cbn [forallb]. intros H. apply andb_true_iff in H. destruct H as [Hp Hps].
  destruct (IH Hps) as [IHl IHa].
  cbn [map rings_before_empty forallb]. rewrite close_ring_nonempty.
  destruct (nonempty_ring p); cbn [flat_map andb]; [|split; reflexivity].
  change (exterior (close_polygon p)) with (close_ring (exterior p)).
  rewrite (ring_lines_close_ring p Hp), IHl, IHa. split; reflexivity.
Qed.

(** X16.  Closing the rings beforehand changes nothing, for rings whose
    first vertex holds no NaN: the geofence whose rings have their first
    vertex appended where they are open is written as the geofence itself,
    and closing a ring twice is closing it once.  (A first vertex with NaN
    differs from every vertex, itself included, and is written once more
    however often it has been appended.) *)
Theorem save_of_closed_rings
        (g g' : Geometry) (polygons : list Polygon)
        (filename : string) (fs : FileSystem) :
  polygons_of g = Some polygons ->
  polygons_of g' = Some (map close_polygon polygons) ->
  forallb starts_without_nan polygons = true ->
  save_geofence_to_poly g' filename fs = save_geofence_to_poly g filename fs
  /\ Forall (fun p => close_ring (close_ring (exterior p))
                      = close_ring (exterior p)) polygons.
Proof.
  intros Hg Hg' Hnan. split.
  - unfold save_geofence_to_poly.
    rewrite (write_geofence_spec g polygons Hg),
      (write_geofence_spec g' _ Hg').
    assert (Hsep : separator (map close_polygon polygons)
                   = separator polygons)
      by (unfold separator; now rewrite length_map).
    destruct (closed_lines (separator polygons) polygons Hnan) as [Hl Ha].
    now rewrite Hsep, Hl, Ha.
  - apply Forall_forall. intros p Hin.
    assert (Hp : starts_without_nan p = true)
      by (apply (proj1 (forallb_forall _ _) Hnan); exact Hin).
    unfold starts_without_nan in Hp.
    destruct (exterior p) as [|first rest]; [reflexivity|].
    apply negb_true_iff in Hp.
    unfold close_ring at 2 3.
    destruct (tuple_ne (List.length (first :: rest) =? 1) first
                       (last (first :: rest) first)) eqn:Hne.
    + change ((first :: rest) ++ [first])
        with (first :: (rest ++ [first])).
      unfold close_ring.
      change (first :: (rest ++ [first]))
        with ((first :: rest) ++ [first]).
      now rewrite last_last, (tuple_ne_same _ first Hp).
    + unfold close_ring. now rewrite Hne.
Qed.

Lemma ring_lines_length (ring : LinearRing) :
  List.length (ring_lines ring) = List.length (close_ring ring).
Proof.
  destruct ring as [|first rest]; [reflexivity|].
  unfold ring_lines, close_ring.
  destruct (tuple_ne _ first (last (first :: rest) first));
    rewrite ?app_nil_r, ?length_app, !length_map; reflexivity.
Qed.

Lemma rings_before_empty_all (polygons : list Polygon) :
  forallb nonempty_ring polygons = true ->
  rings_before_empty polygons = polygons.
Proof.
  induction polygons as [|p rest IH]; [reflexivity|].
  simpl. intros H. apply andb_true_iff in H. destruct H as [Hp Hrest].
  now rewrite Hp, IH.
Qed.

Lemma flat_map_length_sum {A B : Type} (f : A -> list B) (xs : list A) :
  List.length (flat_map f xs)
  = list_sum (map (fun x => List.length (f x)) xs).
Proof.
  induction xs as [|x xs IH]; [reflexivity|].
  simpl. now rewrite length_app, IH.
Qed.

(** X17.  When every polygon has a vertex, the file has one line for the
    header, one for every vertex of every ring once closed, one marker line
    per polygon when there are several, and the final marker line. *)
Theorem save_line_count (g : Geometry) (polygons : list Polygon) :
  polygons_of g = Some polygons ->
  forallb nonempty_ring polygons = true ->
  List.length (fst (write_geofence g []))
  = 2
    + list_sum (map (fun p => List.length (close_ring (exterior p))) polygons)
    + (if 1 <? List.length polygons then List.length polygons else 0).
Proof.
  intros Hg Hall.
  rewrite (write_geofence_spec g polygons Hg), Hall.
  rewrite (rings_before_empty_all polygons Hall).
  cbn [fst List.length]. rewrite length_app, flat_map_length_sum.
  cbn [List.length].
  assert (Hsum : forall sep : list string,
             list_sum (map (fun p => List.length
                                       (ring_lines (exterior p) ++ sep))
                           polygons)
             = list_sum (map (fun p => List.length
                                         (close_ring (exterior p)))
                             polygons)
               + List.length sep * List.length polygons).
  { intros sep. clear. induction polygons as [|p ps IH]; [simpl; lia|].
    simpl. rewrite IH, length_app, ring_lines_length. lia. }
  rewrite Hsum. unfold separator.
  destruct (1 <? List.length polygons); simpl; lia.
Qed.

End SerializerMore.

(* ================================================================= *)
(** ** The written numbers, read back *)

Section NumeralRoundTrip.
Import Serializer PolyFormat Reader.
Local Open Scope string_scope.

Lemma digits_value_uint_acc (d : Decimal.uint) :
  forall acc : positive,
    digits_value (NilEmpty.string_of_uint d) (Z.pos acc)
    = Some (Z.pos (Pos.of_uint_acc d acc)).
Proof.
  induction d; intros acc; cbn [NilEmpty.string_of_uint Pos.of_uint_acc];
    [reflexivity| | | | | | | | | |];
    cbn [digits_value]; (change (is_digit _) with true); cbv iota;
    match goal with
    | |- digits_value _ ?z = Some (Z.pos (Pos.of_uint_acc _ ?p)) =>
        replace z with (Z.pos p) by (cbn [nat_of_ascii]; vm_compute Z.of_nat; lia)
    end; apply IHd.
Qed.

Lemma digits_value_uint (d : Decimal.uint) :
  digits_value (NilEmpty.string_of_uint d) 0 = Some (Z.of_N (N.of_uint d)).
Proof.
  unfold N.of_uint.
  induction d; cbn [NilEmpty.string_of_uint Pos.of_uint];
    [reflexivity|exact IHd| | | | | | | | |];
    cbn [digits_value]; (change (is_digit _) with true); cbv iota;
    match goal with
    | |- digits_value _ ?z = Some (Z.of_N (N.pos (Pos.of_uint_acc _ ?p))) =>
        change z with (Z.pos p)
    end; apply digits_value_uint_acc.
Qed.

Lemma digits_value_decimal (n : Z) :
  (0 <= n)%Z -> digits_value (decimal n) 0 = Some n.
Proof.
  intros Hn. unfold decimal, NilZero.string_of_uint.
  assert (H : digits_value (NilEmpty.string_of_uint (N.to_uint (Z.to_N n))) 0
              = Some n).
  { rewrite digits_value_uint, DecimalN.Unsigned.of_to.
    now rewrite Z2N.id. }
  destruct (N.to_uint (Z.to_N n)); exact H.
Qed.

Lemma digit_char_value (d : Z) :
  (0 <= d < 10)%Z ->
  Z.of_nat (nat_of_ascii (digit_char d) - 48) = d.
Proof.
  intros Hd. unfold digit_char. rewrite nat_ascii_embedding by lia. lia.
Qed.

Lemma digits_value_fixed (width : nat) (n : Z) :
  forall acc : Z,
    digits_value (fixed_digits width n) acc
    = Some (acc * 10 ^ Z.of_nat width + n mod 10 ^ Z.of_nat width)%Z.
Proof.
  induction width as [|w IH]; intros acc.
  - cbn [fixed_digits digits_value]. f_equal.
    change (10 ^ Z.of_nat 0)%Z with 1%Z. rewrite Z.mod_1_r. lia.
  - cbn [fixed_digits digits_value].
    assert (Hd : (0 <= (n / 10 ^ Z.of_nat w) mod 10 < 10)%Z)
      by (apply Z.mod_pos_bound; lia).
    rewrite (is_digit_digit_char _ Hd), (digit_char_value _ Hd), IH.
    f_equal.
    assert (Hpow : (0 < 10 ^ Z.of_nat w)%Z)
      by (apply Z.pow_pos_nonneg; lia).
    rewrite Nat2Z.inj_succ, Z.pow_succ_r by lia.
    rewrite (Z.mul_comm 10 (10 ^ Z.of_nat w)).
    rewrite (Z.rem_mul_r n (10 ^ Z.of_nat w) 10) by lia.
    ring.
Qed.

Lemma digit_not_char (c d : ascii) :
  is_digit d = false -> is_digit c = true -> Ascii.eqb c d = false.
Proof.
  intros Hd Hc. destruct (Ascii.eqb_spec c d) as [->|]; congruence.
Qed.

Lemma all_digits_no_char (d : ascii) (s : string) :
  is_digit d = false -> all_digits s = true -> no_char d s = true.
Proof.
  intros Hd. induction s as [|c rest IH]; [reflexivity|].
  cbn [all_digits no_char]. intros H. apply andb_true_iff in H.
  destruct H as [Hc Hrest].
  now rewrite (digit_not_char c d Hd Hc), (IH Hrest).
Qed.

Lemma digit_not_space (c : ascii) : is_digit c = true -> is_space c = false.
Proof.
  unfold is_digit, is_space. intros H.
  apply andb_true_iff in H. destruct H as [Hlo Hhi].
  apply Nat.leb_le in Hlo, Hhi.
  repeat (apply orb_false_iff; split);
    try (apply andb_false_iff; right; apply Nat.leb_gt; lia);
    try (apply Nat.eqb_neq; lia).
Qed.

Lemma digits_end_with_text (s : string) :
  s <> "" -> all_digits s = true -> ends_with_text s = true.
Proof.
  induction s as [|c rest IH]; [congruence|]. intros _ H.
  cbn [all_digits] in H. apply andb_true_iff in H. destruct H as [Hc Hrest].
  destruct rest as [|d rest'].
  - simpl. now rewrite (digit_not_space c Hc).
  - change (ends_with_text (String d rest') = true).
    apply IH; [discriminate|exact Hrest].
Qed.

Lemma round_half_even_close (q : Q) :
  (Qabs (inject_Z (round_half_even q) - q) <= 1 # 2)%Q.
Proof.
  unfold round_half_even.
  pose proof (Qfloor_le q) as Hlo.
  pose proof (Qlt_floor q) as Hhi.
  rewrite inject_Z_plus in Hhi.
  change (inject_Z 1) with 1%Q in Hhi.
  destruct (Qcompare_spec (q - inject_Z (Qfloor q)) (1 # 2)) as [He|Hl|Hg];
    [destruct (Z.even (Qfloor q))| |];
    rewrite ?inject_Z_plus; change (inject_Z 1) with 1%Q;
    apply Qabs_Qle_condition; split; Lqa.lra.
Qed.

Lemma round_half_even_nonneg (q : Q) :
  (0 <= q)%Q -> (0 <= round_half_even q)%Z.
Proof.
  intros Hq. unfold round_half_even.
  assert (Hfl : (0 <= Qfloor q)%Z).
  { change 0%Z with (Qfloor 0). now apply Qfloor_resp_le. }
  destruct (Qcompare _ _); [destruct (Z.even _)| |]; lia.
Qed.

Lemma unsigned_decimal_format (n : Z) :
  (0 <= n)%Z ->
  unsigned_decimal
    (decimal (n / 10 ^ Z.of_nat 10) ++ "." ++ fixed_digits 10 n)
  = Some (Qmake n (Z.to_pos (10 ^ Z.of_nat 10))).
Proof.
  intros Hn. unfold unsigned_decimal.
  set (scale := (10 ^ Z.of_nat 10)%Z).
  assert (Hscale : (0 < scale)%Z) by reflexivity.
  destruct (decimal_spec (n / scale)) as [Hne Hwd].
  destruct (fixed_digits_spec 10 n) as [Hfd Hfl].
  change ("." ++ fixed_digits 10 n) with (String "." (fixed_digits 10 n)).
  rewrite split_app_sep by now apply all_digits_no_char.
  rewrite split_no_sep by now apply all_digits_no_char.
  rewrite digits_value_decimal by (apply Z.div_pos; lia).
  rewrite digits_value_fixed, Hfl. fold scale.
  destruct (decimal (n / scale)) as [|c rest]; [congruence|].
  cbn [String.append]. f_equal. f_equal.
  pose proof (Z.div_mod n scale) as Hdm.
  generalize dependent (n / scale)%Z. generalize dependent (n mod scale)%Z.
  intros. lia.
Qed.

Lemma format_finite_strip (negative : bool) (magnitude : Q) :
  strip (format_finite 10 negative magnitude)
  = format_finite 10 negative magnitude.
Proof.
  unfold format_finite.
  set (n := round_half_even _). set (scale := (10 ^ Z.of_nat 10)%Z).
  destruct (decimal_spec (n / scale)) as [Hne Hwd].
  destruct (fixed_digits_spec 10 n) as [Hfd Hfl].
  assert (Hend : ends_with_text (fixed_digits 10 n) = true).
  { apply digits_end_with_text; [|exact Hfd].
    intros H. rewrite H in Hfl. discriminate Hfl. }
  unfold strip. rewrite lstrip_text.
  - apply rstrip_text. now repeat apply ends_with_text_app.
  - destruct negative; [reflexivity|].
    destruct (decimal (n / scale)) as [|c rest]; [congruence|].
    cbn [all_digits] in Hwd. apply andb_true_iff in Hwd.
    destruct Hwd as [Hc _]. simpl. now rewrite (digit_not_space c Hc).
Qed.

(** The numeral of a magnitude reads as the rounded multiple of [1e-10],
    with the sign written. *)
Lemma format_finite_reads_as (negative : bool) (magnitude : Q) :
  (0 <= magnitude)%Q ->
  plain_decimal_float (format_finite 10 negative magnitude)
  = Ok (if negative
        then - (round_half_even (magnitude * 10000000000) # 10000000000)
        else round_half_even (magnitude * 10000000000) # 10000000000)%Q.
Proof.
  intros Hm.
  change 10000000000%Q with (inject_Z (10 ^ Z.of_nat 10)).
  assert (Hn : (0 <= round_half_even
                       (magnitude * inject_Z (10 ^ Z.of_nat 10)))%Z).
  { apply round_half_even_nonneg.
    apply Qmult_le_0_compat; [exact Hm|discriminate]. }
  unfold plain_decimal_float. rewrite format_finite_strip.
  unfold format_finite.
  set (n := round_half_even _) in *.
  pose proof (unsigned_decimal_format n Hn) as Hparse.
  change (Z.to_pos (10 ^ Z.of_nat 10)) with 10000000000%positive in Hparse.
  destruct negative.
  - change ("-" ++ decimal (n / 10 ^ Z.of_nat 10)
              ++ "." ++ fixed_digits 10 n)
      with (String "-" (decimal (n / 10 ^ Z.of_nat 10)
                          ++ "." ++ fixed_digits 10 n)).
    cbv iota. change (Ascii.eqb "-" "-") with true. cbv iota.
    rewrite Hparse. reflexivity.
  - cbn [String.append].
    destruct (decimal_spec (n / 10 ^ Z.of_nat 10)) as [Hne Hwd].
    destruct (decimal (n / 10 ^ Z.of_nat 10)) as [|c rest] eqn:Hdec;
      [congruence|].
    cbn [all_digits] in Hwd. apply andb_true_iff in Hwd.
    destruct Hwd as [Hc _].
    cbn [String.append].
    rewrite (digit_not_char c "-" eq_refl Hc),
      (digit_not_char c "+" eq_refl Hc).
    cbn [String.append] in Hparse. rewrite Hparse. reflexivity.
Qed.

(** The numeral of [x] reads as the rounded multiple of [1e-10], with the
    sign of [x]. *)
Lemma format_f_reads_as (x : Q) :
  plain_decimal_float (format_f 10 x)
  = Ok (if Qle_bool 0 x
        then round_half_even (Qabs x * 10000000000) # 10000000000
        else - (round_half_even (Qabs x * 10000000000) # 10000000000))%Q.
Proof.
  change (format_f 10 x)
    with (format_finite 10 (negb (Qle_bool 0 x)) (Qabs x)).
  rewrite (format_finite_reads_as _ _ (Qabs_nonneg x)).
  now destruct (Qle_bool 0 x).
Qed.

Lemma Qle_bool_false (x : Q) : Qle_bool 0 x = false -> (x <= 0)%Q.
Proof.
  intros H. apply Qnot_lt_le. intros Hlt.
  apply Qlt_le_weak, Qle_bool_iff in Hlt. congruence.
Qed.

Lemma round_half_even_inject_Z (m : Z) : round_half_even (inject_Z m) = m.
Proof.
  unfold round_half_even. rewrite Qfloor_Z.
  destruct (Qcompare_spec (inject_Z m - inject_Z m) (1 # 2)) as [H|H|H];
    [exfalso; Lqa.lra|reflexivity|exfalso; Lqa.lra].
Qed.

(** X18.  A number written to the file keeps ten decimals: the numeral
    [format(x, ".10f")], read as a decimal numeral, is a number within
    [5e-11] of [x]. *)
Theorem written_number_reads_back (x : Q) :
  exists q,
    plain_decimal_float (format_f 10 x) = Ok q
    /\ (Qabs (q - x) <= 1 # 20000000000)%Q.
Proof.
  pose proof (round_half_even_close (Qabs x * 10000000000)) as Hclose.
  apply Qabs_Qle_condition in Hclose.
  eexists. split; [apply format_f_reads_as|].
  set (n := round_half_even _) in *.
  assert (Hq : (n # 10000000000 == inject_Z n * (1 # 10000000000))%Q)
    by (rewrite Qmake_Qdiv; reflexivity).
  apply Qabs_Qle_condition.
  destruct (Qle_bool 0 x) eqn:Hsign.
  - apply Qle_bool_iff in Hsign.
    rewrite (Qabs_pos x Hsign) in Hclose. rewrite Hq.
    split; Lqa.lra.
  - apply Qle_bool_false in Hsign.
    rewrite (Qabs_neg x Hsign) in Hclose. rewrite Hq.
    split; Lqa.lra.
Qed.

(** X19.  A number with at most ten decimals, [k / 10^10] for an integer
    [k], is written exactly: its numeral reads back as the number. *)
Theorem ten_decimals_are_written_exactly (k : Z) :
  exists q,
    plain_decimal_float (format_f 10 (k # 10000000000)) = Ok q
    /\ (q == k # 10000000000)%Q.
Proof.
  eexists. split; [apply format_f_reads_as|].
  assert (Hscaled : (Qabs (k # 10000000000) * 10000000000
                     == inject_Z (Z.abs k))%Q).
  { unfold Qabs, Qeq; simpl. lia. }
  rewrite (round_half_even_comp _ _ Hscaled), round_half_even_inject_Z.
  destruct (Qle_bool 0 (k # 10000000000)) eqn:Hsign.
  - apply Qle_bool_iff in Hsign.
    assert (Hk : (0 <= k)%Z) by (unfold Qle in Hsign; simpl in Hsign; lia).
    now rewrite Z.abs_eq.
  - apply Qle_bool_false in Hsign.
    assert (Hk : (k <= 0)%Z) by (unfold Qle in Hsign; simpl in Hsign; lia).
    rewrite Z.abs_neq by exact Hk.
    unfold Qeq; simpl. lia.
Qed.

End NumeralRoundTrip.

(* ================================================================= *)
(** ** The further statements on concrete inputs *)

Section MoreScenarios.
Import Converter Serializer PolyFormat Reader Closing.
Local Open Scope string_scope.

Example mission_waypoints :
  @read_waypoints plain_decimal mission
  = Ok [(85456 # 10000, 473977 # 10000); (85460 # 10000, 473980 # 10000)]%Q.
Proof. vm_compute. reflexivity. Qed.

(** X2 on the sample mission: two data lines, two waypoints. *)
Lemma mission_one_per_data_line :
  @read_waypoints plain_decimal mission
  = Ok [(85456 # 10000, 473977 # 10000); (85460 # 10000, 473980 # 10000)]%Q
  /\ List.length (data_lines mission) = 2.
Proof.
  split; [vm_compute; reflexivity|].
  pose proof (proj1 (@read_waypoints_one_per_data_line plain_decimal mission
                       [(85456 # 10000, 473977 # 10000);
                        (85460 # 10000, 473980 # 10000)]%Q)
                    mission_waypoints) as H.
  exact (Forall2_length H).
Defined.

(** X3 on a line of two fields after the header. *)
Lemma short_line_after_header :
  @read_waypoints plain_decimal [("QGC WPL 110" ++ newline)%string] = Ok []
  /\ is_header ("1" ++ String tab "2" ++ newline)%string = false
  /\ List.length (fields_of ("1" ++ String tab "2" ++ newline)%string) <= 8
  /\ @read_waypoints plain_decimal
       ([("QGC WPL 110" ++ newline)%string]
          ++ ("1" ++ String tab "2" ++ newline)%string :: mission)%list
     = Raise IndexError.
Proof.
  assert (H1 : @read_waypoints plain_decimal [("QGC WPL 110" ++ newline)%string]
               = Ok []) by reflexivity.
  assert (H2 : is_header ("1" ++ String tab "2" ++ newline)%string = false)
    by reflexivity.
  assert (H3 : List.length (fields_of ("1" ++ String tab "2" ++ newline)%string)
               <= 8) by (vm_compute; lia).
  repeat (split; [assumption|]).
  exact (@read_waypoints_short_line plain_decimal _ _ _ mission H1 H2 H3).
Defined.

(** X4 on an empty line at the end of the sample mission. *)
Lemma blank_line_at_the_end :
  all_space newline = true
  /\ @read_waypoints plain_decimal (mission ++ [newline]) = Raise IndexError.
Proof.
  assert (H : all_space newline = true) by reflexivity.
  split; [exact H|].
  exact (proj2 (@read_waypoints_blank_line plain_decimal mission _ newline []
                  mission_waypoints H)).
Defined.

(** X5 on a line of two fields, and on one of twelve fields ended by a
    carriage return and a newline. *)
Lemma twelve_fields_line :
  let fields :=
    ["0"; "1"; "0"; "16"; "0"; "0"; "0"; "0"; "47.3977"; "8.5456"; "488"; "1"]
  in
  let eol := String (ascii_of_nat 13) newline in
  all_space eol = true
  /\ fields_of (String.concat (String tab "") ["a b"; "c"] ++ eol)
     = ["a b"; "c"]
  /\ fields_of (String.concat (String tab "") fields ++ eol) = fields
  /\ @read_line plain_decimal (String.concat (String tab "") fields ++ eol)
     = Ok (85456 # 10000, 473977 # 10000)%Q.
Proof.
  intros fields eol.
  assert (Heol : all_space eol = true) by reflexivity.
  split; [exact Heol|].
  assert (Htwo : Forall (fun f => no_char tab f = true) ["a b"; "c"])
    by (repeat constructor).
  assert (Htabs : Forall (fun f => no_char tab f = true) fields)
    by (repeat constructor).
  split; [|split].
  - exact (proj1 (@read_line_of_fields plain_decimal ["a b"; "c"] eol
                    Htwo eq_refl eq_refl Heol)).
  - exact (proj1 (@read_line_of_fields plain_decimal fields eol
                    Htabs eq_refl eq_refl Heol)).
  - rewrite (proj2 (@read_line_of_fields plain_decimal fields eol
                      Htabs eq_refl eq_refl Heol)
                   "47.3977" "8.5456" eq_refl eq_refl).
    vm_compute. reflexivity.
Defined.

(** X6 on a mission of one data line. *)
Lemma one_data_line_gives_no_geofence :
  List.length (data_lines (firstn 2 mission)) < 2
  /\ exists e,
      bind (@read_waypoints plain_decimal (firstn 2 mission))
           (fun waypoints => @create_geofence ring_shapely waypoints 10)
      = Raise e.
Proof.
  assert (H : List.length (data_lines (firstn 2 mission)) < 2)
    by (vm_compute; lia).
  split; [exact H|].
  exact (@mission_needs_two_data_lines ring_shapely plain_decimal
           (firstn 2 mission) 10 H).
Defined.

Lemma mean_latitude_equator : mean_latitude (0, 0)%Q (1, 0)%Q = 0%R.
Proof. unfold mean_latitude, Q2R; simpl. lra. Qed.

(** X7 on a segment along the equator: ten metres are [10 / 87870.18]
    degrees. *)
Lemma equator_radius :
  (0 <= 10)%R
  /\ (Rabs (mean_latitude (0, 0)%Q (1, 0)%Q) < 90)%R
  /\ segment_radius 10 [(0, 0); (1, 0)]%Q
     = Ok (10 / (meters_per_degree_longitude
                 * cos (radians (mean_latitude (0, 0)%Q (1, 0)%Q))))%R.
Proof.
  assert (H0 : (0 <= 10)%R) by lra.
  assert (H1 : (Rabs (mean_latitude (0, 0)%Q (1, 0)%Q) < 90)%R)
    by (rewrite mean_latitude_equator, Rabs_R0; lra).
  repeat (split; [assumption|]).
  exact (proj1 (segment_radius_is_longitude_conversion
                  10 (0, 0)%Q (1, 0)%Q H0 H1)).
Defined.

(** X8 on the same segment and minus ten metres. *)
Lemma equator_negative_radius :
  (- 10 < 0)%R
  /\ (Rabs (mean_latitude (0, 0)%Q (1, 0)%Q) < 90)%R
  /\ segment_radius (- 10) [(0, 0); (1, 0)]%Q
     = Ok (- 10 / meters_per_degree_latitude)%R.
Proof.
  assert (H0 : (- 10 < 0)%R) by lra.
  assert (H1 : (Rabs (mean_latitude (0, 0)%Q (1, 0)%Q) < 90)%R)
    by (rewrite mean_latitude_equator, Rabs_R0; lra).
  repeat (split; [assumption|]).
  exact (proj1 (segment_radius_of_negative_distance
                  (- 10) (0, 0)%Q (1, 0)%Q H0 H1)).
Defined.

(** X10: a segment and the segment mirrored at the equator. *)
Lemma mirrored_segment :
  Rabs (mean_latitude (0, 1)%Q (0, 2)%Q)
  = Rabs (mean_latitude (5, - 1)%Q (7, - 2)%Q)
  /\ segment_radius 10 [(0, 1); (0, 2)]%Q
     = segment_radius 10 [(5, - 1); (7, - 2)]%Q.
Proof.
  assert (H : Rabs (mean_latitude (0, 1)%Q (0, 2)%Q)
              = Rabs (mean_latitude (5, - 1)%Q (7, - 2)%Q)).
  { replace (mean_latitude (5, - 1)%Q (7, - 2)%Q)
      with (- mean_latitude (0, 1)%Q (0, 2)%Q)%R
      by (unfold mean_latitude, Q2R; simpl; lra).
    now rewrite Rabs_Ropp. }
  split; [exact H|].
  exact (segment_radius_depends_on_mean_latitude 10 _ _ _ _ H).
Defined.

(** X11 on the two segments of [path3]. *)
Lemma path3_chain :
  line_segments path3
  = Ok [[(0, 0); (0, 1 # 1000)]; [(0, 1 # 1000); (0, 2 # 1000)]]%Q
  /\ exists a b c,
      [(0, 0); (0, 1 # 1000)]%Q = [a; b]
      /\ [(0, 1 # 1000); (0, 2 # 1000)]%Q = [b; c].
Proof.
  split; [reflexivity|].
  destruct (consecutive_segments_share_a_waypoint
              path3 _ 0 _ _ eq_refl eq_refl eq_refl)
    as (a & b & c & Hs & Ht & _).
  exists a, b, c. split; assumption.
Defined.

(** X13 on a point. *)
Lemma simplify_point_rejected :
  polygons_of (GPoint (0, 0)%Q) = None
  /\ @simplify_geofence ring_shapely (GPoint (0, 0)%Q) 10
       default_simplification_tolerance
     = Raise AttributeError.
Proof.
  split; [reflexivity|].
  exact (@simplify_geofence_rejects_other_geometries ring_shapely
           (GPoint (0, 0)%Q) 10 default_simplification_tolerance eq_refl).
Defined.

(** X14 on the two squares, with the instance that keeps every ring. *)
Lemma simplify_two_squares :
  polygons_of (GMultiPolygon [square; open_square])
  = Some [square; open_square]
  /\ @simplify_geofence ring_shapely (GMultiPolygon [square; open_square]) 10
       default_simplification_tolerance
     = Ok (GMultiPolygon [mkPolygon (exterior square) [];
                          mkPolygon (exterior open_square) []]).
Proof.
  split; [reflexivity|].
  rewrite (@simplify_geofence_merges_simplified_exteriors ring_shapely
             (GMultiPolygon [square; open_square]) [square; open_square]
             (fun p => p) 10 default_simplification_tolerance eq_refl
             (fun p _ => eq_refl)).
  reflexivity.
Defined.

(** X15: the square alone and as the only member of a [MultiPolygon]. *)
Lemma lone_member_written_alike :
  map exterior [square] = map exterior [mkPolygon (exterior square) [[]]]
  /\ save_geofence_to_poly (GMultiPolygon [square]) "fence.poly" no_files
     = save_geofence_to_poly (GPolygon (mkPolygon (exterior square) [[]]))
                             "fence.poly" no_files.
Proof.
  split; [reflexivity|].
  exact (save_depends_on_exterior_rings
           (GMultiPolygon [square])
           (GPolygon (mkPolygon (exterior square) [[]]))
           [square] [mkPolygon (exterior square) [[]]]
           "fence.poly" no_files eq_refl eq_refl eq_refl).
Defined.

(** X16: the open square and the square closed beforehand. *)
Lemma open_square_closed_beforehand :
  close_polygon open_square = square
  /\ forallb starts_without_nan [open_square] = true
  /\ save_geofence_to_poly (GPolygon square) "fence.poly" no_files
     = save_geofence_to_poly (GPolygon open_square) "fence.poly" no_files.
Proof.
  split; [reflexivity|]. split; [reflexivity|].
  exact (proj1 (save_of_closed_rings
                  (GPolygon open_square) (GPolygon square) [open_square]
                  "fence.poly" no_files eq_refl eq_refl eq_refl)).
Defined.

(** A ring that starts at a vertex with NaN is written with that vertex
    once more, also after it has been appended. *)
Example nan_ring_closed_beforehand :
  List.length (fst (write_geofence (GPolygon nan_ring) [])) = 6
  /\ List.length (fst (write_geofence (GPolygon (close_polygon nan_ring)) []))
     = 7.
Proof. split; vm_compute; reflexivity. Qed.

(** X17 on the two squares: header, five and five vertex lines, two
    marker lines and the final one. *)
Lemma two_squares_line_count :
  forallb nonempty_ring [square; open_square] = true
  /\ List.length (fst (write_geofence (GMultiPolygon [square; open_square])
                                      []))
     = 14.
Proof.
  split; [reflexivity|].
  exact (save_line_count (GMultiPolygon [square; open_square])
                         [square; open_square] eq_refl eq_refl).
Defined.

End MoreScenarios.

(* ================================================================= *)
(** ** The rings written by [save_geofence_to_poly] *)

Section RingClosure.
Import Serializer PolyFormat Reader.
Local Open Scope string_scope.

(** The numeral of a finite float, read as a decimal numeral, is within
    [5e-11] of the float. *)
Lemma finite_numeral_value (x : pyfloat) :
  is_finite x = true ->
  exists q,
    plain_decimal_float (format_f 10 x) = Ok q
    /\ (Qabs (q - finite_value x) <= 1 # 20000000000)%Q.
Proof.
  destruct x as [x| | | |]; try discriminate; intros _.
  - pose proof (round_half_even_close (Qabs x * 10000000000)) as Hclose.
    apply Qabs_Qle_condition in Hclose.
    eexists. split; [apply format_f_reads_as|].
    set (n := round_half_even _) in *.
    assert (Hq : (n # 10000000000 == inject_Z n * (1 # 10000000000))%Q)
      by (rewrite Qmake_Qdiv; reflexivity).
    cbn [finite_value]. apply Qabs_Qle_condition.
    destruct (Qle_bool 0 x) eqn:Hsign.
    + apply Qle_bool_iff in Hsign.
      rewrite (Qabs_pos x Hsign) in Hclose. rewrite Hq.
      split; Lqa.lra.
    + apply Qle_bool_false in Hsign.
      rewrite (Qabs_neg x Hsign) in Hclose. rewrite Hq.
      split; Lqa.lra.
  - exists (- (0 # 10000000000))%Q. split; [|discriminate].
    vm_compute. reflexivity.
Qed.

(** The last vertex line of a ring is the line of its first vertex or of a
    vertex that [==] holds equal to it. *)
Lemma ring_lines_last (first : vertex) (rest : list vertex) :
  exists closing,
    last (ring_lines (first :: rest)) EmptyString = line_of closing
    /\ (closing = first \/ coord_neq first closing = false).
Proof.
  unfold ring_lines.
  destruct (tuple_ne (List.length (first :: rest) =? 1)%nat first
                     (last (first :: rest) first)) eqn:Hne.
  - exists first. split; [apply last_last|now left].
  - exists (last (first :: rest) first).
    rewrite app_nil_r, (last_map_cons line_of first first).
    split; [reflexivity|].
    unfold tuple_ne in Hne. apply andb_false_iff in Hne.
    destruct Hne as [Hone|Hneq]; [left|now right].
    apply negb_false_iff, Nat.eqb_eq in Hone.
    destruct rest; [reflexivity|discriminate Hone].
Qed.

(** C3, as amended.  For a [Polygon] or [MultiPolygon], the lines written
    are the header, then for each polygon its vertex lines and, finally, the
    terminator.  A vertex line is the latitude, a space, the longitude and a
    newline; a finite number is written with exactly ten digits after the
    point, as a numeral within [5e-11] of it, an infinity or NaN as [inf],
    [-inf] or [nan].  The vertex lines of a ring are one line per vertex,
    followed by the line of the first vertex once more when
    [coords[0] != coords[-1]]: the last vertex line is the line of the first
    vertex or of a vertex that [==] holds equal to it, and it is the first
    vertex line itself unless the two vertices differ in the sign of a zero.
    (A polygon whose ring has no vertex stops the writing with [IndexError];
    the rings written before it are closed all the same.) *)
Theorem poly_rings_are_closed
        (geofence : Geometry) (polygons : list Polygon)
        (filename : string) (fs : FileSystem) :
  polygons_of geofence = Some polygons ->
  let written := rings_before_empty polygons in
  let complete := forallb nonempty_ring polygons in
  let lines :=
    (header
       :: flat_map (fun p => ring_lines (exterior p) ++ separator polygons)
                   written
       ++ (if complete then [END] else []))%list in
  let outcome := if complete then Ok tt else Raise IndexError in
  write_geofence geofence [] = (lines, outcome)
  /\ save_geofence_to_poly geofence filename fs
     = (store fs filename (String.concat "" lines), outcome)
  /\ (Forall (fun p => exterior p <> []) polygons -> written = polygons)
  /\ Forall
       (fun p =>
          exists first others closing,
            exterior p = first :: others
            /\ ring_lines (exterior p)
               = (map line_of (exterior p)
                    ++ (if tuple_ne (List.length (exterior p) =? 1)%nat first
                                    (last (exterior p) first)
                        then [line_of first] else []))%list
            /\ hd_error (ring_lines (exterior p)) = Some (line_of first)
            /\ last (ring_lines (exterior p)) "" = line_of closing
            /\ (closing = first \/ coord_neq first closing = false)
            /\ (vertex_signs_agree first (last (exterior p) first) = true ->
                last (ring_lines (exterior p)) "" = line_of first))
       written
  /\ (forall lon lat : pyfloat,
         line_of (lon, lat)
         = format_f 10 lat ++ " " ++ format_f 10 lon ++ newline)
  /\ (forall x : pyfloat,
         is_finite x = true ->
         fixed_point 10 (format_f 10 x)
         /\ exists q,
             plain_decimal_float (format_f 10 x) = Ok q
             /\ (Qabs (q - finite_value x) <= 1 # 20000000000)%Q)
  /\ format_f 10 PosInf = "inf"
  /\ format_f 10 NegInf = "-inf"
  /\ format_f 10 NaN = "nan".
Proof.
  intros Hg written complete lines outcome.
  pose proof (write_geofence_spec geofence polygons Hg) as Hw.
  fold written complete lines outcome in Hw.
  split; [exact Hw|].
  split; [unfold save_geofence_to_poly; now rewrite Hw|].
  split; [|split; [|split; [|split; [|repeat split]]]].
  - subst written. clear. induction polygons as [|p rest IH]; intros Hne.
    + reflexivity.
    + inversion Hne as [|? ? Hp Hrest]; subst. simpl.
      unfold nonempty_ring.
      destruct (exterior p); [congruence|].
      now rewrite IH.
  - subst written. clear. induction polygons as [|p rest IH]; simpl.
    + constructor.
    + destruct (nonempty_ring p) eqn:Hp; [|constructor].
      constructor; [|exact IH].
      unfold nonempty_ring in Hp.
      destruct (exterior p) as [|first others] eqn:Hring; [discriminate|].
      destruct (ring_lines_closed first others) as [Hhd Hlast].
      destruct (ring_lines_last first others) as (closing & Hl & Hc).
      exists first, others, closing. repeat split; assumption.
  - intros lon lat. reflexivity.
  - intros x Hx. split.
    + now apply format_f_fixed_point.
    + now apply finite_numeral_value.
Qed.

(** C3 on the open square: four vertex lines and the first one again. *)
Lemma open_square_is_closed_on_write :
  polygons_of (GPolygon open_square) = Some [open_square]
  /\ write_geofence (GPolygon open_square) []
     = (map (fun s => s ++ Serializer.newline)
            ["#saved by Python Script";
             "0.0000000000 0.0000000000";
             "0.0000000000 1.0000000000";
             "1.0000000000 1.0000000000";
             "1.0000000000 0.0000000000";
             "0.0000000000 0.0000000000";
             "END"],
        Ok tt).
Proof.
  split; [reflexivity|].
  destruct (poly_rings_are_closed (GPolygon open_square) [open_square]
              "fence.poly" no_files eq_refl)
    as (Hw & _).
  rewrite Hw. vm_compute. reflexivity.
Defined.

(** C3, as stated, fails on a ring that ends at its first vertex with a zero
    of the other sign: [!=] holds the two vertices equal, no vertex is
    written again, and the first and the last vertex line differ; and an
    infinity is written without digits after a point. *)
Lemma signed_zero_ring_lines_differ :
  write_geofence (GPolygon signed_zero_ring) []
  = (map (fun s => s ++ Serializer.newline)
         ["#saved by Python Script";
          "0.0000000000 0.0000000000";
          "0.0000000000 1.0000000000";
          "1.0000000000 1.0000000000";
          "0.0000000000 -0.0000000000";
          "END"],
     Ok tt)
  /\ hd_error (ring_lines (exterior signed_zero_ring))
     <> Some (last (ring_lines (exterior signed_zero_ring)) "")
  /\ ~ fixed_point 10 (format_f 10 PosInf).
Proof.
  split; [vm_compute; reflexivity|]. split.
  - vm_compute. discriminate.
  - intros (sign & whole & frac & Heq & Hsign & Hne & Hdigits & _).
    destruct whole as [|c whole']; [congruence|].
    cbn [all_digits] in Hdigits. apply andb_true_iff in Hdigits.
    destruct Hdigits as [Hc _].
    destruct Hsign as [-> | ->]; cbn in Heq; injection Heq as Hc' _.
    + subst c. discriminate Hc.
    + discriminate Hc'.
Qed.

End RingClosure.
